(** * fast_limiter: the rate limiters of [rate_limiter.py]

    A shallow embedding of the four limiter classes and of the
    [rate_limit] decorator, followed by the properties checked on them.

    Conventions of the embedding.
    - Python [int] is [Z].  Python [float] is read as an exact rational
      ([Q]): rounding of binary floating point is left out, so is
      overflow, infinities and NaN.  [int(x)] on a float truncates
      towards zero ([int_of_float]).  Some properties of the value
      of a float computation are stated with a margin ([float_slack])
      for inputs in range, or for inputs on which the computation is
      exact ([clock_reading]): those hold whatever the rounding left
      out.
    - A method is a function of the object's state in a small
      state-and-exception monad [M]: it returns a value or raises, and
      the state it leaves behind.
    - What a call observes of the outside world, the reading of
      [time.time()] and the draw of [random.randint], is passed to it as
      a [world].
    - The builtins [float(s)] and [int(s)] on text are parameters of the
      development ([float_of_str], [int_of_str]). *)

From Stdlib Require Import ZArith QArith Qround Lqa String List.
From stdpp Require Import gmap strings pretty.

Local Open Scope string_scope.
Local Open Scope list_scope.
Local Open Scope Z_scope.

(** ** Numbers and values *)

Inductive num : Type :=
| NInt (z : Z)
| NFloat (q : Q).

Definition num_q (n : num) : Q :=
  match n with
  | NInt z => inject_Z z
  | NFloat q => q
  end.

Inductive pyval : Type :=
| VNone
| VNum (n : num)
| VStr (s : string)
| VPair (a b : pyval).

Definition VInt (z : Z) : pyval := VNum (NInt z).
Definition VFloat (q : Q) : pyval := VNum (NFloat q).

Definition is_none (v : pyval) : bool :=
  match v with
  | VNone => true
  | _ => false
  end.

(** [x < y] and [x <= y] on floats, as booleans. *)
Definition Qltb (x y : Q) : bool := negb (Qle_bool y x).
Definition Qleb (x y : Q) : bool := Qle_bool x y.

(** [int(x)] for a float [x]: truncation towards zero. *)
Definition int_of_float (x : Q) : Z := Z.quot (Qnum x) (Z.pos (Qden x)).

(** [a - b] on numbers: an int only when both are. *)
Definition num_sub (a b : num) : num :=
  match a, b with
  | NInt x, NInt y => NInt (x - y)
  | _, _ => NFloat (num_q a - num_q b)
  end.

(** Truth value of a number: zero is false. *)
Definition num_truthy (n : num) : bool :=
  match n with
  | NInt z => negb (z =? 0)
  | NFloat q => negb (Qeq_bool q 0)
  end.

(** [x == y] on numbers compares the numeric values, whatever the types. *)
Definition num_eqb (a b : num) : bool := Qeq_bool (num_q a) (num_q b).

(** [min(a, b)]: the second argument only when it is strictly smaller. *)
Definition num_min (a b : num) : num :=
  if Qltb (num_q b) (num_q a) then b else a.

(** ** Exceptions and the monad of methods *)

Inductive exn : Type :=
| TypeError
| ValueError (msg : string)
| ZeroDivisionError
| AttributeError
| DataError
| ResponseError
| HTTPException (status_code : Z) (detail : string)
    (headers : list (string * string)).

Inductive outcome (A : Type) : Type :=
| Ok (a : A)
| Raise (e : exn).
Arguments Ok {A} a.
Arguments Raise {A} e.

Definition M (S A : Type) : Type := S -> outcome A * S.

Definition ret {S A} (a : A) : M S A := fun s => (Ok a, s).
Definition raise {S A} (e : exn) : M S A := fun s => (Raise e, s).
Definition bind {S A B} (c : M S A) (k : A -> M S B) : M S B :=
  fun s =>
    match c s with
    | (Ok a, s') => k a s'
    | (Raise e, s') => (Raise e, s')
    end.
Definition lift_outcome {S A} (o : outcome A) : M S A := fun s => (o, s).

Declare Scope py_scope.
Delimit Scope py_scope with py.
Notation "'let*' x ':=' c 'in' k" := (bind c (fun x => k))
  (at level 10, x name, c at level 100, k at level 200) : py_scope.
Notation "c ';;;' k" := (bind c (fun _ => k))
  (at level 100, k at level 200, right associativity) : py_scope.
Local Open Scope py_scope.

(** The outside world as one call sees it. *)
Record world : Type := {
  time_time : Q;
  random_randint : Z -> Z -> Z
}.

(** ** The abstract base class [RateLimiter] *)

Class RateLimiter (S : Type) : Type := {
  check_rate_limit : world -> string -> Z -> Z -> M S (bool * Z);
  get_data : string -> M S pyval;
  set_data : string -> pyval -> option Z -> M S pyval
}.

(** The bodies [pass] of the base class: both return [None]. *)
Definition base_get_data {S} (key : string) : M S pyval := ret VNone.
Definition base_set_data {S} (key : string) (value : pyval)
    (ttl : option Z) : M S pyval := ret VNone.

Definition ttl_val (ttl : option Z) : pyval :=
  match ttl with
  | Some z => VInt z
  | None => VNone
  end.

(** ** [InMemoryRateLimiter] *)

Module InMemoryRateLimiter.

Record t : Type := {
  request_records : gmap string (Z * Q);
  data_store : gmap string pyval
}.

Definition init : t :=
  {| request_records := ∅; data_store := ∅ |}.

Definition put_record (identifier : string) (r : Z * Q) (self : t) : t :=
  {| request_records := <[identifier := r]> (request_records self);
     data_store := data_store self |}.

Definition check_rate_limit (w : world) (identifier : string)
    (requests_limit window_seconds : Z) : M t (bool * Z) :=
  fun self =>
    let current_time := time_time w in
    match request_records self !! identifier with
    | Some (requests_count, window_start) =>
        if Qltb (inject_Z window_seconds) (current_time - window_start)
        then (Ok (true, 0), put_record identifier (1, current_time) self)
        else if requests_limit <=? requests_count
        then
          let retry_after :=
            int_of_float
              (window_start + inject_Z window_seconds - current_time) in
          (Ok (false, retry_after), self)
        else
          (Ok (true, 0),
           put_record identifier (requests_count + 1, window_start) self)
    | None =>
        (Ok (true, 0), put_record identifier (1, current_time) self)
    end.

Definition get_data (key : string) : M t pyval :=
  fun self =>
    match data_store self !! key with
    | Some v => (Ok v, self)
    | None => (Ok VNone, self)
    end.

Definition set_data (key : string) (value : pyval) (ttl : option Z)
    : M t pyval :=
  fun self =>
    (Ok VNone,
     {| request_records := request_records self;
        data_store := <[key := VPair value (ttl_val ttl)]> (data_store self) |}).

End InMemoryRateLimiter.

#[export] Instance InMemory_RateLimiter : RateLimiter InMemoryRateLimiter.t := {
  check_rate_limit := InMemoryRateLimiter.check_rate_limit;
  get_data := InMemoryRateLimiter.get_data;
  set_data := InMemoryRateLimiter.set_data
}.

(** ** The redis client

    The client library is not part of this repository.  Its store is
    modelled as a map from keys to the byte string held and the
    time-to-live asked for it.  A byte string is kept by what it spells:
    the decimal text of an int, the [repr] of a float (which [float]
    reads back exactly), or other text.  Expiry itself is the server's
    work and is no step of this code: the model only records the
    time-to-live. *)

Module Redis.

Inductive rbytes : Type :=
| BInt (z : Z)
| BFloat (q : Q)
| BText (s : string).

Abbreviation db := (gmap string (rbytes * option Z)).

(** What the client accepts as a value: bytes, text, ints and floats. *)
Definition encode (v : pyval) : outcome rbytes :=
  match v with
  | VNum (NInt z) => Ok (BInt z)
  | VNum (NFloat q) => Ok (BFloat q)
  | VStr s => Ok (BText s)
  | VNone | VPair _ _ => Raise DataError
  end.

(** Truth value of a reply: [None] and the empty byte string are false. *)
Definition truthy (r : option rbytes) : bool :=
  match r with
  | None => false
  | Some (BText "") => false
  | Some _ => true
  end.

Definition get {S} (proj : S -> db) (key : string) : M S (option rbytes) :=
  fun s => (Ok (fst <$> proj s !! key), s).

Definition do_set (key : string) (value : rbytes) (d : db) : db :=
  <[key := (value, None)]> d.

Definition do_setex (key : string) (ttl : Z) (value : rbytes)
    (d : db) : outcome db :=
  if 0 <? ttl then Ok (<[key := (value, Some ttl)]> d)
  else Raise ResponseError.

(** [EXPIRE]: a time-to-live that is not positive deletes the key. *)
Definition do_expire (key : string) (ttl : Z) (d : db) : db :=
  match d !! key with
  | Some (value, _) =>
      if 0 <? ttl then <[key := (value, Some ttl)]> d else delete key d
  | None => d
  end.

End Redis.

(** The builtins [float] and [int] applied to text: they return the
    number spelled or raise [ValueError]. *)
Class PyBuiltins : Type := {
  float_of_str : string -> outcome Q;
  int_of_str : string -> outcome Z
}.

(** [INCR]: the value must spell an integer; an absent key counts from 0.
    The server's reading of an integer is taken to be [int_of_str]. *)
Definition redis_incr {builtins : PyBuiltins} (key : string) (d : Redis.db)
    : outcome Z * Redis.db :=
  match d !! key with
  | None => (Ok 1, <[key := (Redis.BInt 1, None)]> d)
  | Some (Redis.BInt z, ttl) =>
      (Ok (z + 1), <[key := (Redis.BInt (z + 1), ttl)]> d)
  | Some (Redis.BFloat _, _) => (Raise ResponseError, d)
  | Some (Redis.BText s, ttl) =>
      match int_of_str s with
      | Ok z => (Ok (z + 1), <[key := (Redis.BInt (z + 1), ttl)]> d)
      | Raise _ => (Raise ResponseError, d)
      end
  end.

(** [int(b)] and [float(b)] on a reply of the server. *)
Definition int_of_bytes {builtins : PyBuiltins} (b : Redis.rbytes) : outcome Z :=
  match b with
  | Redis.BInt z => Ok z
  | Redis.BFloat _ => Raise (ValueError "invalid literal for int() with base 10")
  | Redis.BText s => int_of_str s
  end.

Definition float_of_bytes {builtins : PyBuiltins} (b : Redis.rbytes) : outcome Q :=
  match b with
  | Redis.BInt z => Ok (inject_Z z)
  | Redis.BFloat q => Ok q
  | Redis.BText s => float_of_str s
  end.

(** ** [RedisRateLimiter] *)

Module RedisRateLimiter.
Section Methods.
Context {builtins : PyBuiltins}.

Record t : Type := {
  redis : Redis.db;
  prefix : string
}.

Definition init (redis_client : Redis.db) (prefix : option string) : t :=
  {| redis := redis_client; prefix := default "ratelimit:" prefix |}.

Definition with_redis (f : Redis.db -> Redis.db) : M t unit :=
  fun self => (Ok tt, {| redis := f (redis self); prefix := prefix self |}).

Definition try_redis {A} (f : Redis.db -> outcome A * Redis.db) : M t A :=
  fun self =>
    let '(o, d) := f (redis self) in
    (o, {| redis := d; prefix := prefix self |}).

(** The pipeline issued for a first request and for an expired window:
    two [SET]s, then two [EXPIRE]s. *)
Definition start_window (key : string) (current_time : Q)
    (window_seconds : Z) : M t unit :=
  with_redis (Redis.do_set (key +:+ ":count") (Redis.BInt 1)) ;;;
  with_redis (Redis.do_set (key +:+ ":start") (Redis.BFloat current_time)) ;;;
  with_redis (Redis.do_expire (key +:+ ":count") window_seconds) ;;;
  with_redis (Redis.do_expire (key +:+ ":start") window_seconds).

Definition check_rate_limit (w : world) (identifier : string)
    (requests_limit window_seconds : Z) : M t (bool * Z) :=
  let* key := (fun self => (Ok (prefix self +:+ identifier), self)) in
  let* count_bytes := Redis.get redis (key +:+ ":count") in
  let* start_bytes := Redis.get redis (key +:+ ":start") in
  let current_time := time_time w in
  match count_bytes, start_bytes with
  | Some cb, Some sb =>
      if Redis.truthy count_bytes && Redis.truthy start_bytes then
        let* count := lift_outcome (int_of_bytes cb) in
        let* start := lift_outcome (float_of_bytes sb) in
        if Qltb (inject_Z window_seconds) (current_time - start) then
          start_window key current_time window_seconds ;;;
          ret (true, 0)
        else if requests_limit <=? count then
          let retry_after :=
            int_of_float (start + inject_Z window_seconds - current_time) in
          ret (false, retry_after)
        else
          try_redis (redis_incr (key +:+ ":count")) ;;;
          ret (true, 0)
      else
        start_window key current_time window_seconds ;;;
        ret (true, 0)
  | _, _ =>
      start_window key current_time window_seconds ;;;
      ret (true, 0)
  end.

(** The reply of [self.redis.get(key)] is dropped: the method ends
    without a [return]. *)
Definition get_data (key : string) : M t pyval :=
  let* _ := Redis.get redis key in
  ret VNone.

Definition set_data (key : string) (value : pyval) (ttl : option Z)
    : M t pyval :=
  let* b := lift_outcome (Redis.encode value) in
  match ttl with
  | Some n =>
      if negb (n =? 0) then
        try_redis (fun d =>
          match Redis.do_setex key n b d with
          | Ok d' => (Ok tt, d')
          | Raise e => (Raise e, d)
          end) ;;;
        ret VNone
      else
        with_redis (Redis.do_set key b) ;;;
        ret VNone
  | None =>
      with_redis (Redis.do_set key b) ;;;
      ret VNone
  end.

End Methods.
End RedisRateLimiter.

#[export] Instance Redis_RateLimiter {builtins : PyBuiltins}
    : RateLimiter RedisRateLimiter.t := {
  check_rate_limit := RedisRateLimiter.check_rate_limit;
  get_data := RedisRateLimiter.get_data;
  set_data := RedisRateLimiter.set_data
}.

(** ** [TokenBucketRateLimiter] *)

(** [a / b] on two ints: true division, a float. *)
Definition int_truediv (a b : Z) : outcome Q :=
  if b =? 0 then Raise ZeroDivisionError
  else Ok (inject_Z a / inject_Z b)%Q.

(** [x / y] on floats. *)
Definition float_div (x y : Q) : outcome Q :=
  if Qeq_bool y 0 then Raise ZeroDivisionError else Ok (x / y)%Q.

(** [x - v] for a float [x]: defined when [v] is a number. *)
Definition float_sub_val (x : Q) (v : pyval) : outcome Q :=
  match v with
  | VNum n => Ok (x - num_q n)%Q
  | _ => Raise TypeError
  end.

(** [v + x] for a float [x]: defined when [v] is a number. *)
Definition val_add_float (v : pyval) (x : Q) : outcome Q :=
  match v with
  | VNum n => Ok (num_q n + x)%Q
  | _ => Raise TypeError
  end.

(** [if isinstance(v, str): v = float(v)]. *)
Definition float_if_str {builtins : PyBuiltins} (v : pyval) : outcome pyval :=
  match v with
  | VStr s =>
      match float_of_str s with
      | Ok q => Ok (VFloat q)
      | Raise e => Raise e
      end
  | _ => Ok v
  end.

(** [self.bucket_capacity or requests_limit]. *)
Definition capacity_or_limit (configured : option num) (requests_limit : Z)
    : num :=
  match configured with
  | Some c => if num_truthy c then c else NInt requests_limit
  | None => NInt requests_limit
  end.

Module TokenBucketRateLimiter.
Section Methods.
Context {builtins : PyBuiltins} {S : Type} {limiter : RateLimiter S}.

Record t : Type := {
  storage : S;
  bucket_capacity : option num
}.

Definition on_storage {A} (c : M S A) : M t A :=
  fun self =>
    let '(o, s) := c (storage self) in
    (o, {| storage := s; bucket_capacity := bucket_capacity self |}).

Definition _get_bucket_data (key : string) : M t pyval :=
  on_storage (get_data key).

Definition _set_bucket_data (key : string) (value : pyval)
    (ttl : option Z) : M t pyval :=
  on_storage (set_data key value ttl) ;;;
  ret VNone.

Definition check_rate_limit (w : world) (identifier : string)
    (requests_limit window_seconds : Z) : M t (bool * Z) :=
  let* refill_rate :=
    lift_outcome (int_truediv requests_limit window_seconds) in
  let* bucket_capacity :=
    (fun self =>
       (Ok (capacity_or_limit (bucket_capacity self) requests_limit), self)) in
  let bucket_key := "bucket:" +:+ identifier in
  let last_update_key := "last_update:" +:+ identifier in
  let* current_tokens := _get_bucket_data bucket_key in
  let* last_update := _get_bucket_data last_update_key in
  let current_time := time_time w in
  if is_none current_tokens || is_none last_update then
    _set_bucket_data bucket_key
      (VNum (num_sub bucket_capacity (NInt 1)))
      (Some (window_seconds * 2)) ;;;
    _set_bucket_data last_update_key (VFloat current_time)
      (Some (window_seconds * 2)) ;;;
    ret (true, 0)
  else
    let* current_tokens := lift_outcome (float_if_str current_tokens) in
    let* last_update := lift_outcome (float_if_str last_update) in
    let* time_elapsed :=
      lift_outcome (float_sub_val current_time last_update) in
    let tokens_to_add := (time_elapsed * refill_rate)%Q in
    let* total := lift_outcome (val_add_float current_tokens tokens_to_add) in
    let new_token_count := num_min (NFloat total) bucket_capacity in
    if Qleb 1 (num_q new_token_count) then
      let new_token_count := num_sub new_token_count (NInt 1) in
      _set_bucket_data bucket_key (VNum new_token_count)
        (Some (window_seconds * 2)) ;;;
      _set_bucket_data last_update_key (VFloat current_time)
        (Some (window_seconds * 2)) ;;;
      ret (true, 0)
    else
      let* time_until_next_token :=
        lift_outcome (float_div (1 - num_q new_token_count) refill_rate) in
      let retry_after := int_of_float (time_until_next_token + (1 # 2)) in
      _set_bucket_data last_update_key (VFloat current_time)
        (Some (window_seconds * 2)) ;;;
      ret (false, Z.max 1 retry_after).

End Methods.

Arguments t S : clear implicits.

(** [TokenBucketRateLimiter(storage_backend, bucket_capacity)]. *)
Definition init {S} (storage_backend : S) (bucket_capacity : option num)
    : t S :=
  {| storage := storage_backend; bucket_capacity := bucket_capacity |}.

(** No backend given: a fresh [InMemoryRateLimiter()]. *)
Definition init_default (bucket_capacity : option num)
    : t InMemoryRateLimiter.t :=
  init InMemoryRateLimiter.init bucket_capacity.

End TokenBucketRateLimiter.

#[export] Instance TokenBucket_RateLimiter {builtins : PyBuiltins} {S} {limiter : RateLimiter S}
    : RateLimiter (TokenBucketRateLimiter.t S) := {
  check_rate_limit := TokenBucketRateLimiter.check_rate_limit;
  get_data := base_get_data;
  set_data := base_set_data
}.

(** ** [FixedWindowRateLimiter] *)

Module FixedWindowRateLimiter.
Section Methods.
Context {S : Type} {limiter : RateLimiter S}.

Record t : Type := {
  storage : S;
  jitter_seconds : Z
}.

Definition on_storage {A} (c : M S A) : M t A :=
  fun self =>
    let '(o, s) := c (storage self) in
    (o, {| storage := s; jitter_seconds := jitter_seconds self |}).

Definition check_rate_limit (w : world) (identifier : string)
    (requests_limit window_seconds : Z) : M t (bool * Z) :=
  let* jitter := (fun self => (Ok (jitter_seconds self), self)) in
  let window_seconds :=
    if 0 <? jitter
    then window_seconds + random_randint w 0 jitter
    else window_seconds in
  on_storage (check_rate_limit w identifier requests_limit window_seconds).

End Methods.

Arguments t S : clear implicits.

Definition init {S} (storage_backend : S) (jitter_seconds : option Z)
    : t S :=
  {| storage := storage_backend;
     jitter_seconds := default 0 jitter_seconds |}.

End FixedWindowRateLimiter.

#[export] Instance FixedWindow_RateLimiter {S} {limiter : RateLimiter S}
    : RateLimiter (FixedWindowRateLimiter.t S) := {
  check_rate_limit := FixedWindowRateLimiter.check_rate_limit;
  get_data := base_get_data;
  set_data := base_set_data
}.

(** ** The decorator [rate_limit] *)

(** A FastAPI [Request], as far as the default identifier reads it:
    [request.client] may be absent. *)
Record Request : Type := {
  client_host : option string;
  url_path : string
}.

(** An argument of the wrapped call: a [Request] or anything else. *)
Inductive pyarg : Type :=
| ARequest (r : Request)
| AOther (v : pyval).

(** The first argument that is an instance of [Request]. *)
Fixpoint find_request (args : list pyarg) : option Request :=
  match args with
  | [] => None
  | ARequest r :: _ => Some r
  | AOther _ :: rest => find_request rest
  end.

(** [lambda request: request.client.host + request.url.path]. *)
Definition default_identifier (request : Request) : outcome string :=
  match client_host request with
  | Some host => Ok (host +:+ url_path request)
  | None => Raise AttributeError
  end.

Section Decorator.
Context {S : Type} {limiter : RateLimiter S} {R : Type}.

(** The body of the decorated function.  A [Request] object counts as
    true in [if not request]; awaiting [func] gives its result or its
    exception. *)

Definition wrapper (requests_limit window_seconds : Z)
    (identifier_func : Request -> outcome string)
    (func : list pyarg -> list (string * pyarg) -> outcome R)
    (w : world) (args : list pyarg) (kwargs : list (string * pyarg))
    : M S R :=
  let request := find_request args in
  let request :=
    match request with
    | Some r => Some r
    | None => find_request (map snd kwargs)
    end in
  match request with
  | None => raise (ValueError "No FastAPI Request object found in arguments")
  | Some request =>
      let* identifier := lift_outcome (identifier_func request) in
      let* decision :=
        check_rate_limit w identifier requests_limit window_seconds in
      let '(is_allowed, retry_after) := decision in
      if negb is_allowed then
        raise (HTTPException 429
                 ("Rate limit exceeded. Try again in "
                    +:+ pretty retry_after +:+ " seconds.")
                 [("Retry-After", pretty retry_after)])
      else lift_outcome (func args kwargs)
  end.

Definition rate_limit (requests_limit window_seconds : Z)
    (identifier_func : option (Request -> outcome string))
    (func : list pyarg -> list (string * pyarg) -> outcome R)
    : world -> list pyarg -> list (string * pyarg) -> M S R :=
  wrapper requests_limit window_seconds
    (default default_identifier identifier_func) func.

End Decorator.

(** ** A recording backend

    A storage backend that forwards every call to another one and keeps
    the list of [set_data] calls it has seen, in order: the device the
    test-suite uses to count the writes of a limiter. *)

Module Recording.
Section Methods.
Context {S : Type} {limiter : RateLimiter S}.

Record t : Type := {
  inner : S;
  set_calls : list (string * pyval * option Z)
}.

Definition on_inner {A} (c : M S A) : M t A :=
  fun self =>
    let '(o, s) := c (inner self) in
    (o, {| inner := s; set_calls := set_calls self |}).

Definition get_data (key : string) : M t pyval :=
  on_inner (get_data key).

Definition set_data (key : string) (value : pyval) (ttl : option Z)
    : M t pyval :=
  fun self =>
    let '(o, s) := set_data key value ttl (inner self) in
    (o, {| inner := s; set_calls := set_calls self ++ [(key, value, ttl)] |}).

Definition check_rate_limit (w : world) (identifier : string)
    (requests_limit window_seconds : Z) : M t (bool * Z) :=
  on_inner (check_rate_limit w identifier requests_limit window_seconds).

End Methods.

Arguments t S : clear implicits.

Definition init {S} (backend : S) : t S :=
  {| inner := backend; set_calls := [] |}.

End Recording.

#[export] Instance Recording_RateLimiter {S} {limiter : RateLimiter S}
    : RateLimiter (Recording.t S) := {
  check_rate_limit := Recording.check_rate_limit;
  get_data := Recording.get_data;
  set_data := Recording.set_data
}.

(** ** Runs of several calls *)

(** The calls of one client in turn, each at its own reading of the
    world; a call that raises does not stop the later ones.  The result
    lists what each call gave and the state left at the end. *)
Fixpoint run_checks {S} {limiter : RateLimiter S} (identifier : string)
    (requests_limit window_seconds : Z) (ws : list world) (s : S)
    : list (outcome (bool * Z)) * S :=
  match ws with
  | [] => ([], s)
  | w :: rest =>
      let '(o, s') :=
        check_rate_limit w identifier requests_limit window_seconds s in
      let '(os, s'') :=
        run_checks identifier requests_limit window_seconds rest s' in
      (o :: os, s'')
  end.

(** A world whose clock reads [now]; the draw is not used by the callers
    of this constructor. *)
Definition at_time (now : Q) : world :=
  {| time_time := now; random_randint := fun a _ => a |}.

(** Calls in turn, each with its own identifier, limit and window. *)
Fixpoint run_calls {S} {limiter : RateLimiter S}
    (calls : list (world * string * Z * Z)) (s : S)
    : list (outcome (bool * Z)) * S :=
  match calls with
  | [] => ([], s)
  | (w, identifier, requests_limit, window_seconds) :: rest =>
      let '(o, s') :=
        check_rate_limit w identifier requests_limit window_seconds s in
      let '(os, s'') := run_calls rest s' in
      (o :: os, s'')
  end.

(** A recorded write is in order for capacity [C] when, its key being a
    token key (["bucket:..."]), the value written is a number between 0
    and [C]. *)
Definition token_write_ok (C : num) (call : string * pyval * option Z)
    : bool :=
  let '(key, value, _) := call in
  if String.prefix "bucket:" key then
    match value with
    | VNum n => Qleb 0 (num_q n) && Qleb (num_q n) (num_q C)
    | _ => false
    end
  else true.

(** A token bucket whose storage is a recording backend over [S0], the
    backend being in state [s] and the calls seen so far being [log]. *)
Definition recorded {S0 : Type} (s : S0)
    (log : list (string * pyval * option Z)) (cap : option num)
    : TokenBucketRateLimiter.t (Recording.t S0) :=
  {| TokenBucketRateLimiter.storage :=
       {| Recording.inner := s; Recording.set_calls := log |};
     TokenBucketRateLimiter.bucket_capacity := cap |}.

(** Builtins that read no text at all: every [float(s)] and [int(s)]
    raises.  Used for closed examples whose values are numbers. *)
Definition no_text_builtins : PyBuiltins :=
  {| float_of_str := fun _ => Raise (ValueError "could not convert string to float");
     int_of_str := fun _ => Raise (ValueError "invalid literal for int() with base 10") |}.

(** ** States used in closed examples *)

(** An in-memory backend whose data store was filled by hand for client
    ["A"], the way the test-suite seeds [request_records]: a token value
    and a time of last update, not wrapped in pairs. *)
Definition seeded_store (tokens last : pyval) : InMemoryRateLimiter.t :=
  {| InMemoryRateLimiter.request_records := ∅;
     InMemoryRateLimiter.data_store :=
       <["last_update:A" := last]> (<["bucket:A" := tokens]> ∅) |}.

(** An in-memory limiter holding one record for client ["A"]. *)
Definition seeded_records (count : Z) (window_start : Q)
    : InMemoryRateLimiter.t :=
  {| InMemoryRateLimiter.request_records := {["A" := (count, window_start)]};
     InMemoryRateLimiter.data_store := ∅ |}.

(** A redis limiter holding one record for client ["A"]. *)
Definition seeded_redis (count : Z) (window_start : Q) : RedisRateLimiter.t :=
  {| RedisRateLimiter.redis :=
       <["ratelimit:A:start" := (Redis.BFloat window_start, None)]>
         (<["ratelimit:A:count" := (Redis.BInt count, None)]> ∅);
     RedisRateLimiter.prefix := "ratelimit:" |}.

(** The clock reads 1000 and every draw gives 3. *)
Definition draw_three : world :=
  {| time_time := 1000; random_randint := fun _ _ => 3 |}.

(** A request from 127.0.0.1 for [/test]. *)
Definition test_request : Request :=
  {| client_host := Some "127.0.0.1"; url_path := "/test" |}.

(** An endpoint that answers ["success"] whatever it is given. *)
Definition test_endpoint (args : list pyarg) (kwargs : list (string * pyarg))
    : outcome string :=
  Ok "success".

(** ** Further notions used in the statements *)

(** The call returned and let the request through. *)
Definition is_allowed (o : outcome (bool * Z)) : bool :=
  match o with
  | Ok (true, _) => true
  | _ => false
  end.

(** How many calls of a run were let through. *)
Definition count_allowed (os : list (outcome (bool * Z))) : nat :=
  length (List.filter is_allowed os).

(** The redis store holds for [identifier] the record the in-memory
    limiter holds for it: the count as the text of an int, the start as
    the text of a float, whatever their time-to-live; and no count where
    the in-memory limiter has no record. *)
Definition same_record (identifier : string) (mem : InMemoryRateLimiter.t)
    (red : RedisRateLimiter.t) : Prop :=
  let key := RedisRateLimiter.prefix red +:+ identifier in
  match InMemoryRateLimiter.request_records mem !! identifier with
  | Some (count, window_start) =>
      (exists ttl,
          RedisRateLimiter.redis red !! (key +:+ ":count")
          = Some (Redis.BInt count, ttl))
      /\ (exists ttl,
            RedisRateLimiter.redis red !! (key +:+ ":start")
            = Some (Redis.BFloat window_start, ttl))
  | None => RedisRateLimiter.redis red !! (key +:+ ":count") = None
  end.

(** The decorated function called several times with the same
    arguments, each time at its own reading of the world. *)
Fixpoint run_requests {S R : Type}
    (handler : world -> list pyarg -> list (string * pyarg) -> M S R)
    (args : list pyarg) (kwargs : list (string * pyarg))
    (ws : list world) (s : S) : list (outcome R) * S :=
  match ws with
  | [] => ([], s)
  | w :: rest =>
      let '(o, s') := handler w args kwargs s in
      let '(os, s'') := run_requests handler args kwargs rest s' in
      (o :: os, s'')
  end.

(** What the decorated function answers for a decision of the limiter. *)
Definition response_of {R : Type} (result : outcome R)
    (o : outcome (bool * Z)) : outcome R :=
  match o with
  | Ok (true, _) => result
  | Ok (false, retry_after) =>
      Raise (HTTPException 429
               ("Rate limit exceeded. Try again in "
                  +:+ pretty retry_after +:+ " seconds.")
               [("Retry-After", pretty retry_after)])
  | Raise e => Raise e
  end.

(** Every poll in [times] comes so soon after the one before it (the
    first one after [previous]) that the tokens refilled since then,
    added to the stored [tokens], stay below 1. *)
Fixpoint polls_too_soon (tokens refill_rate previous : Q) (times : list Q)
    : Prop :=
  match times with
  | [] => True
  | t :: rest =>
      (tokens + (t - previous) * refill_rate < 1)%Q
      /\ polls_too_soon tokens refill_rate t rest
  end.

(** A recorded write belongs to the token bucket of [identifier] with
    window [window_seconds]: its key is one of the two keys of the
    identifier and its time-to-live is twice the window. *)
Definition bucket_write_of (identifier : string) (window_seconds : Z)
    (call : string * pyval * option Z) : bool :=
  let '(key, _, ttl) := call in
  (String.eqb key ("bucket:" +:+ identifier)
   || String.eqb key ("last_update:" +:+ identifier))
  && match ttl with
     | Some n => n =? window_seconds * 2
     | None => false
     end.

(** ** A storage double that keeps values

    An in-memory limiter whose [set_data] keeps the value alone instead
    of the pair [(value, ttl)]: a backend on which the token bucket reads
    back the numbers it wrote.  It stands in the closed examples for a
    backend that honours the storage contract. *)

Module ValueStore.

Definition set_data (key : string) (value : pyval) (ttl : option Z)
    : M InMemoryRateLimiter.t pyval :=
  fun self =>
    (Ok VNone,
     {| InMemoryRateLimiter.request_records :=
          InMemoryRateLimiter.request_records self;
        InMemoryRateLimiter.data_store :=
          <[key := value]> (InMemoryRateLimiter.data_store self) |}).

Definition ops : RateLimiter InMemoryRateLimiter.t :=
  Build_RateLimiter InMemoryRateLimiter.t
    InMemoryRateLimiter.check_rate_limit InMemoryRateLimiter.get_data
    set_data.

Definition read (self : InMemoryRateLimiter.t) (key : string) : pyval :=
  default VNone (InMemoryRateLimiter.data_store self !! key).

End ValueStore.

(** ** Ranges and margins for float computations

    A statement that depends on the value a float computation gives,
    and not only on the path the code takes, is made for inputs in range
    and with a margin, or for inputs on which the computation is exact:
    it then holds of the computation on doubles as it does of the exact
    reading of it made here. *)

(** A margin far above the rounding error of the few operations of one
    check, each of them being off by at most [2^-53] of its result:
    [2^-40]. *)
Definition float_slack : Q := 1 # 1099511627776.

(** The numbers one check of the token bucket works on are in range:
    limit and window positive and below [2^53], capacity and stored
    tokens between 0 and [2^53], the stored time of last update between
    0 and the current time, and the current time at most [2^53].  Every
    int among them is then a double, and no operation of the check
    overflows. *)
Definition bucket_in_range (requests_limit window_seconds : Z)
    (capacity tokens last_update : num) (current_time : Q) : bool :=
  (0 <? requests_limit) && (requests_limit <? 9007199254740992)
  && (0 <? window_seconds) && (window_seconds <? 9007199254740992)
  && Qleb 0 (num_q capacity)
  && Qleb (num_q capacity) (inject_Z 9007199254740992)
  && Qleb 0 (num_q tokens)
  && Qleb (num_q tokens) (inject_Z 9007199254740992)
  && Qleb 0 (num_q last_update)
  && Qleb (num_q last_update) current_time
  && Qleb current_time (inject_Z 9007199254740992).

(** A reading of [time.time()] in the current era: a time from 0 to
    below [2^31] seconds that is a multiple of [2^-22] seconds, as is
    every double from [2^30] to [2^31].  Sums and differences of such
    readings and of whole seconds that stay below [2^31] are exact on
    doubles. *)
Definition clock_reading (t : Q) : bool :=
  Qleb 0 t && Qltb t (inject_Z 2147483648)
  && ((Qnum t * 4194304) mod Z.pos (Qden t) =? 0).

(** * Properties *)

Section Properties.
Context {builtins : PyBuiltins}.

(** ** Comparisons and truncation on floats *)

Lemma Qltb_true (x y : Q) : Qltb x y = true <-> (x < y)%Q.
Proof.
  unfold Qltb. rewrite negb_true_iff.
  destruct (Qle_bool y x) eqn:E.
  - apply Qle_bool_iff in E. split; [discriminate | intros; lra].
  - split; [intros _ | reflexivity].
    apply Qnot_le_lt. intros Hle. apply Qle_bool_iff in Hle. congruence.
Qed.

Lemma Qltb_false (x y : Q) : Qltb x y = false <-> (y <= x)%Q.
Proof.
  unfold Qltb. rewrite negb_false_iff. apply Qle_bool_iff.
Qed.

Lemma Qleb_true (x y : Q) : Qleb x y = true <-> (x <= y)%Q.
Proof. apply Qle_bool_iff. Qed.

Lemma Qleb_false (x y : Q) : Qleb x y = false <-> (y < x)%Q.
Proof.
  unfold Qleb. destruct (Qle_bool x y) eqn:E.
  - apply Qle_bool_iff in E. split; [discriminate | intros; lra].
  - split; [intros _ | reflexivity].
    apply Qnot_le_lt. intros Hle. apply Qle_bool_iff in Hle. congruence.
Qed.


(** What [bucket_in_range] gives to the proofs. *)
Lemma bucket_in_range_spec (L W : Z) (C nt nu : num) (now : Q) :
  bucket_in_range L W C nt nu now = true ->
  0 < L /\ 0 < W /\ (0 <= num_q C)%Q /\ (0 <= num_q nt)%Q
  /\ (num_q nu <= now)%Q.
Proof.
  unfold bucket_in_range. rewrite !andb_true_iff.
  intros [[[[[[[[[[Hl _] Hw] _] HC] _] Hnt] _] _] Hnu] _].
  apply Z.ltb_lt in Hl, Hw. apply Qleb_true in HC, Hnt, Hnu.
  auto.
Qed.

Lemma float_slack_positive : (0 < float_slack)%Q.
Proof. reflexivity. Qed.

(** Truncation is the floor on a float that is not negative. *)
Lemma int_of_float_floor (x : Q) : (0 <= x)%Q -> int_of_float x = Qfloor x.
Proof.
  intros Hx. unfold int_of_float. destruct x as [n d]. simpl.
  apply Z.quot_div_nonneg; [| lia].
  unfold Qle in Hx. simpl in Hx. lia.
Qed.

Lemma int_of_float_bounds (x : Q) (W : Z) :
  (0 <= x)%Q -> (x <= inject_Z W)%Q -> 0 <= int_of_float x <= W.
Proof.
  intros Hx HW. rewrite int_of_float_floor by assumption. split.
  - rewrite <- (Qfloor_Z 0). apply Qfloor_resp_le. exact Hx.
  - rewrite <- (Qfloor_Z W). apply Qfloor_resp_le. exact HW.
Qed.

Lemma int_of_float_pos (x : Q) : (1 <= x)%Q -> 0 < int_of_float x.
Proof.
  intros Hx. rewrite int_of_float_floor by lra.
  assert (1 <= Qfloor x) as Hf; [| lia].
  rewrite <- (Qfloor_Z 1). apply Qfloor_resp_le. exact Hx.
Qed.

Lemma int_of_float_small (x : Q) :
  (0 <= x)%Q -> (x < 1)%Q -> int_of_float x = 0.
Proof.
  intros Hx Hx1. rewrite int_of_float_floor by assumption.
  pose proof (Qfloor_le x) as Hle.
  assert (0 <= Qfloor x) as Hf0
    by (rewrite <- (Qfloor_Z 0); apply Qfloor_resp_le; exact Hx).
  assert (inject_Z (Qfloor x) < 1)%Q as Hq by lra.
  change 1%Q with (inject_Z 1) in Hq.
  rewrite <- Zlt_Qlt in Hq. lia.
Qed.

(** ** Runs *)

Lemma run_checks_app {S} {limiter : RateLimiter S} (identifier : string) (L W : Z)
    (ws1 ws2 : list world) (s : S) :
  run_checks identifier L W (ws1 ++ ws2) s =
    let '(os1, s1) := run_checks identifier L W ws1 s in
    let '(os2, s2) := run_checks identifier L W ws2 s1 in
    (os1 ++ os2, s2).
Proof.
  revert s. induction ws1 as [| w ws1 IH]; intros s.
  - simpl. destruct (run_checks identifier L W ws2 s). reflexivity.
  - simpl. destruct (check_rate_limit w identifier L W s) as [o s'].
    rewrite IH.
    destruct (run_checks identifier L W ws1 s') as [os1 s1].
    destruct (run_checks identifier L W ws2 s1) as [os2 s2].
    reflexivity.
Qed.

(** ** The fixed-window counter in memory *)

Section FixedWindowInMemory.
Variables (identifier : string) (L W : Z).

Let check (now : Q) :=
  InMemoryRateLimiter.check_rate_limit (at_time now) identifier L W.

Lemma in_memory_first (now : Q) (self : InMemoryRateLimiter.t) :
  InMemoryRateLimiter.request_records self !! identifier = None ->
  check now self =
    (Ok (true, 0), InMemoryRateLimiter.put_record identifier (1, now) self).
Proof.
  intros Hnone. unfold check, InMemoryRateLimiter.check_rate_limit.
  simpl. rewrite Hnone. reflexivity.
Qed.

Lemma in_memory_under_limit (now t0 : Q) (c : Z)
    (self : InMemoryRateLimiter.t) :
  InMemoryRateLimiter.request_records self !! identifier = Some (c, t0) ->
  (now - t0 <= inject_Z W)%Q -> c < L ->
  check now self =
    (Ok (true, 0),
     InMemoryRateLimiter.put_record identifier (c + 1, t0) self).
Proof.
  intros Hrec Hin Hc. unfold check, InMemoryRateLimiter.check_rate_limit.
  simpl. rewrite Hrec.
  apply Qltb_false in Hin. rewrite Hin.
  destruct (L <=? c) eqn:E; [apply Z.leb_le in E; lia | reflexivity].
Qed.

Lemma in_memory_at_limit (now t0 : Q) (c : Z)
    (self : InMemoryRateLimiter.t) :
  InMemoryRateLimiter.request_records self !! identifier = Some (c, t0) ->
  (now - t0 <= inject_Z W)%Q -> L <= c ->
  check now self =
    (Ok (false, int_of_float (t0 + inject_Z W - now)), self).
Proof.
  intros Hrec Hin Hc. unfold check, InMemoryRateLimiter.check_rate_limit.
  simpl. rewrite Hrec.
  apply Qltb_false in Hin. rewrite Hin.
  destruct (L <=? c) eqn:E; [reflexivity | apply Z.leb_gt in E; lia].
Qed.

(** Calls inside the window, while the count stays under the limit,
    are all allowed and only move the count. *)
Lemma in_memory_run_under_limit (t0 : Q) (ts : list Q) :
  forall (c : Z) (self : InMemoryRateLimiter.t),
    InMemoryRateLimiter.request_records self !! identifier = Some (c, t0) ->
    Forall (fun t => (t - t0 <= inject_Z W)%Q) ts ->
    c + Z.of_nat (length ts) <= L ->
    exists self',
      run_checks identifier L W (map at_time ts) self
        = (repeat (Ok (true, 0)) (length ts), self')
      /\ InMemoryRateLimiter.request_records self' !! identifier
         = Some (c + Z.of_nat (length ts), t0).
Proof.
  induction ts as [| t ts IH]; intros c self Hrec Hin Hc.
  - exists self. simpl. rewrite Z.add_0_r. auto.
  - inversion Hin as [| ? ? Ht Hts]; subst.
    simpl length in *.
    cbn [map run_checks].
    change (@check_rate_limit _ InMemory_RateLimiter (at_time t) identifier L W self)
      with (check t self).
    rewrite (in_memory_under_limit t t0 c self Hrec Ht) by lia.
    destruct (IH (c + 1)
                (InMemoryRateLimiter.put_record identifier (c + 1, t0) self))
      as (self' & Hrun & Hrec').
    + simpl. apply lookup_insert_eq.
    + exact Hts.
    + lia.
    + exists self'. rewrite Hrun. split; [reflexivity |].
      rewrite Hrec'. f_equal. f_equal. lia.
Qed.

(** What holds of a full window: with a limit of at least one, a first
    call at [t0] and [L - 1] more inside the window are allowed, the
    next call inside the window is denied, and its retry delay lies
    between 0 and the window; it is positive when at least one second
    of the window is left, and 0 when less than one second is left. *)
Lemma in_memory_admission (t0 tlast : Q) (ts : list Q)
    (self : InMemoryRateLimiter.t) :
  InMemoryRateLimiter.request_records self !! identifier = None ->
  1 <= L -> Z.of_nat (length ts) = L - 1 ->
  Forall (fun t => (t - t0 <= inject_Z W)%Q) ts ->
  (t0 <= tlast)%Q -> (tlast - t0 <= inject_Z W)%Q ->
  exists r,
    fst (run_checks identifier L W (map at_time (t0 :: ts ++ [tlast])) self)
      = repeat (Ok (true, 0)) (Z.to_nat L) ++ [Ok (false, r)]
    /\ 0 <= r <= W
    /\ ((tlast - t0 <= inject_Z W - 1)%Q -> 0 < r)
    /\ ((inject_Z W - 1 < tlast - t0)%Q -> r = 0).
Proof.
  intros Hnone HL Hlen Hin Hle Hlast.
  exists (int_of_float (t0 + inject_Z W - tlast)).
  split; [| split; [| split]].
  - cbn [map run_checks].
    change (@check_rate_limit _ InMemory_RateLimiter (at_time t0)
              identifier L W self) with (check t0 self).
    rewrite (in_memory_first t0 self Hnone).
    rewrite map_app, run_checks_app.
    destruct (in_memory_run_under_limit t0 ts 1
                (InMemoryRateLimiter.put_record identifier (1, t0) self))
      as (self' & Hrun & Hrec').
    + simpl. apply lookup_insert_eq.
    + exact Hin.
    + lia.
    + rewrite Hrun. cbn [map run_checks].
      change (@check_rate_limit _ InMemory_RateLimiter (at_time tlast)
                identifier L W self') with (check tlast self').
      rewrite (in_memory_at_limit tlast t0 _ self' Hrec' Hlast) by lia.
      cbn [fst].
      replace (Z.to_nat L) with (S (length ts)) by lia.
      reflexivity.
  - apply int_of_float_bounds; lra.
  - intros Hroom. apply int_of_float_pos. lra.
  - intros Hlate. apply int_of_float_small; lra.
Qed.

End FixedWindowInMemory.

(** C1 (the code departs from the claim).  Limit 5, window 60: five calls
    at 1000 .. 1004 are allowed and a sixth one at 1059.5, half a second
    before the window ends, is denied with a retry delay of 0 seconds,
    not a positive one. *)
Theorem in_memory_deny_with_zero_retry :
  fst (run_checks "A" 5 60
         (map at_time [1000; 1001; 1002; 1003; 1004; 2119 # 2]%Q)
         InMemoryRateLimiter.init)
  = [Ok (true, 0); Ok (true, 0); Ok (true, 0); Ok (true, 0); Ok (true, 0);
     Ok (false, 0)].
Proof. vm_compute. reflexivity. Qed.

(** ** Storage: what [get_data] gives after [set_data] *)

Lemma VPair_neq_left (v b : pyval) : VPair v b <> v.
Proof.
  revert b. induction v as [| n | s | v1 IH1 v2 IH2]; intros b; try discriminate.
  intros Heq. injection Heq as Heq1 Heq2. exact (IH1 _ Heq1).
Qed.

(** C2 (the code departs from the claim).  After [set_data(key, value,
    ttl)], [get_data(key)] of the in-memory limiter returns the pair
    [(value, ttl)], which is never the value stored, and [get_data(key)]
    of the redis limiter returns [None]. *)
Theorem get_data_after_set_data :
  (forall (self : InMemoryRateLimiter.t) key value ttl,
      fst (get_data key (snd (set_data key value ttl self)))
        = Ok (VPair value (ttl_val ttl))
      /\ VPair value (ttl_val ttl) <> value)
  /\ (forall (self : RedisRateLimiter.t) key value ttl,
        fst (get_data key (snd (set_data key value ttl self))) = Ok VNone).
Proof.
  split.
  - intros self key value ttl. split; [| apply VPair_neq_left].
    cbn. unfold InMemoryRateLimiter.get_data. cbn.
    rewrite lookup_insert_eq. reflexivity.
  - intros self key value ttl. reflexivity.
Qed.


(** ** Window reset *)

Lemma count_start_keys_differ (key : string) :
  key +:+ ":count" <> key +:+ ":start".
Proof.
  intros Heq. apply (inj (String.app key)) in Heq. discriminate.
Qed.

Lemma do_expire_positive (key : string) (W : Z) (d : Redis.db)
    (value : Redis.rbytes) (ttl : option Z) :
  0 < W -> d !! key = Some (value, ttl) ->
  Redis.do_expire key W d = <[key := (value, Some W)]> d.
Proof.
  intros HW Hkey. unfold Redis.do_expire. rewrite Hkey.
  destruct (0 <? W) eqn:E; [reflexivity | apply Z.ltb_ge in E; lia].
Qed.

(** The four commands of [start_window], for a positive window: both
    entries are rewritten with the window as time-to-live, nothing else
    moves. *)
Lemma start_window_lookup (key : string) (now : Q) (W : Z)
    (self : RedisRateLimiter.t) :
  0 < W ->
  exists self',
    RedisRateLimiter.start_window key now W self = (Ok tt, self')
    /\ RedisRateLimiter.prefix self' = RedisRateLimiter.prefix self
    /\ RedisRateLimiter.redis self' !! (key +:+ ":count")
       = Some (Redis.BInt 1, Some W)
    /\ RedisRateLimiter.redis self' !! (key +:+ ":start")
       = Some (Redis.BFloat now, Some W)
    /\ (forall k, k <> key +:+ ":count" -> k <> key +:+ ":start" ->
          RedisRateLimiter.redis self' !! k = RedisRateLimiter.redis self !! k).
Proof.
  intros HW. pose proof (count_start_keys_differ key) as Hne.
  eexists. split; [reflexivity |].
  cbn [RedisRateLimiter.redis RedisRateLimiter.prefix].
  unfold Redis.do_set.
  rewrite (do_expire_positive (key +:+ ":count") W _ (Redis.BInt 1) None HW).
  2:{ rewrite lookup_insert_ne by congruence. apply lookup_insert_eq. }
  rewrite (do_expire_positive (key +:+ ":start") W _ (Redis.BFloat now) None HW).
  2:{ rewrite lookup_insert_ne by congruence. apply lookup_insert_eq. }
  repeat split.
  - rewrite lookup_insert_ne by congruence. apply lookup_insert_eq.
  - apply lookup_insert_eq.
  - intros k Hc Hs.
    rewrite !lookup_insert_ne by congruence. reflexivity.
Qed.

(** C5.  A record whose window started more than [window_seconds] before
    the check is replaced by [(1, now)] and the call is allowed with a
    retry delay of 0, whatever the count was: for the limiter in memory,
    and for the redis limiter (there for a positive window, the entries
    being rewritten with the window as time-to-live). *)
Theorem window_reset (w : world) (identifier : string)
    (requests_limit window_seconds count : Z) (window_start : Q) :
  (inject_Z window_seconds < time_time w - window_start)%Q ->
  (forall self : InMemoryRateLimiter.t,
      InMemoryRateLimiter.request_records self !! identifier
        = Some (count, window_start) ->
      exists self',
        check_rate_limit w identifier requests_limit window_seconds self
          = (Ok (true, 0), self')
        /\ InMemoryRateLimiter.request_records self' !! identifier
           = Some (1, time_time w)
        /\ (forall other, other <> identifier ->
              InMemoryRateLimiter.request_records self' !! other
              = InMemoryRateLimiter.request_records self !! other)
        /\ InMemoryRateLimiter.data_store self'
           = InMemoryRateLimiter.data_store self)
  /\ (forall (self : RedisRateLimiter.t) cb sb ttl1 ttl2,
        let key := RedisRateLimiter.prefix self +:+ identifier in
        RedisRateLimiter.redis self !! (key +:+ ":count") = Some (cb, ttl1) ->
        RedisRateLimiter.redis self !! (key +:+ ":start") = Some (sb, ttl2) ->
        Redis.truthy (Some cb) = true -> Redis.truthy (Some sb) = true ->
        int_of_bytes cb = Ok count ->
        float_of_bytes sb = Ok window_start ->
        0 < window_seconds ->
        exists self',
          check_rate_limit w identifier requests_limit window_seconds self
            = (Ok (true, 0), self')
          /\ RedisRateLimiter.redis self' !! (key +:+ ":count")
             = Some (Redis.BInt 1, Some window_seconds)
          /\ RedisRateLimiter.redis self' !! (key +:+ ":start")
             = Some (Redis.BFloat (time_time w), Some window_seconds)
          /\ (forall k, k <> key +:+ ":count" -> k <> key +:+ ":start" ->
                RedisRateLimiter.redis self' !! k
                = RedisRateLimiter.redis self !! k)).
Proof.
  intros Hexp. apply Qltb_true in Hexp. split.
  - intros self Hrec. eexists. split; [| split; [| split]].
    + cbn. unfold InMemoryRateLimiter.check_rate_limit.
      rewrite Hrec, Hexp. reflexivity.
    + simpl. apply lookup_insert_eq.
    + intros other Hne. simpl. apply lookup_insert_ne. congruence.
    + reflexivity.
  - intros self cb sb ttl1 ttl2 key Hc Hs Htc Hts Hint Hfloat HW.
    destruct (start_window_lookup key (time_time w) window_seconds self HW)
      as (self' & Hrun & _ & Hc' & Hs' & Hother).
    exists self'. split; [| auto].
    cbn. unfold RedisRateLimiter.check_rate_limit, bind, Redis.get.
    fold key. rewrite Hc, Hs. cbn [fmap option_fmap option_map fst].
    rewrite Htc, Hts. cbn [andb].
    unfold lift_outcome. rewrite Hint, Hfloat, Hexp.
    rewrite Hrun. reflexivity.
Qed.

(** ** The jittered wrapper *)

(** C6.  With a draw inside the bounds it was asked for, the wrapper
    hands the identifier and the limit over unchanged, together with a
    window between [window_seconds] and [window_seconds + J] (the
    configured window plus the draw when [J] is positive, the configured
    window itself otherwise), and returns what the wrapped strategy
    returns, the wrapped strategy's state being the only thing moved. *)
Theorem jittered_window_delegates {S} {limiter : RateLimiter S}
    (self : FixedWindowRateLimiter.t S) (w : world) (identifier : string)
    (requests_limit window_seconds : Z) :
  let J := FixedWindowRateLimiter.jitter_seconds self in
  (0 <= random_randint w 0 J <= J \/ J <= 0) ->
  exists window,
    check_rate_limit w identifier requests_limit window_seconds self
      = (fst (check_rate_limit w identifier requests_limit window
                (FixedWindowRateLimiter.storage self)),
         {| FixedWindowRateLimiter.storage :=
              snd (check_rate_limit w identifier requests_limit window
                     (FixedWindowRateLimiter.storage self));
            FixedWindowRateLimiter.jitter_seconds := J |})
    /\ (0 < J -> window = window_seconds + random_randint w 0 J
                /\ window_seconds <= window <= window_seconds + J)
    /\ (J <= 0 -> window = window_seconds).
Proof.
  intros J Hdraw.
  exists (if 0 <? J then window_seconds + random_randint w 0 J
          else window_seconds).
  split; [| split].
  - cbn. unfold FixedWindowRateLimiter.check_rate_limit, bind.
    unfold FixedWindowRateLimiter.on_storage. fold J.
    destruct (check_rate_limit w identifier requests_limit _ _) as [o s].
    reflexivity.
  - intros HJ. assert ((0 <? J) = true) as -> by (apply Z.ltb_lt; exact HJ).
    split; [reflexivity | lia].
  - intros HJ. assert ((0 <? J) = false) as -> by (apply Z.ltb_ge; exact HJ).
    reflexivity.
Qed.

(** ** The decorator *)

Lemma find_request_app (l1 l2 : list pyarg) :
  find_request (l1 ++ l2) =
    match find_request l1 with
    | Some r => Some r
    | None => find_request l2
    end.
Proof.
  induction l1 as [| a l1 IH]; [reflexivity |].
  destruct a as [r | v]; [reflexivity | exact IH].
Qed.

(** C8.  The wrapper has three outcomes.  No [Request] among the
    positional arguments and the keyword values: [ValueError], which is
    no [HTTPException], and the limiter is not consulted.  A [Request]
    found and the limiter denies: [HTTPException] with status 429 whose
    [Retry-After] header is the decimal text of the retry delay, and the
    wrapped function is not called.  A [Request] found and the limiter
    allows: the result of the wrapped function on the same arguments. *)
Theorem rate_limit_outcomes {S} {limiter : RateLimiter S} {R : Type}
    (requests_limit window_seconds : Z)
    (identifier_func : option (Request -> outcome string))
    (func : list pyarg -> list (string * pyarg) -> outcome R)
    (w : world) (args : list pyarg) (kwargs : list (string * pyarg))
    (self : S) :
  let call :=
    rate_limit requests_limit window_seconds identifier_func func
      w args kwargs self in
  (find_request (args ++ map snd kwargs) = None ->
     exists msg,
       call = (Raise (ValueError msg), self)
       /\ forall status detail headers,
            ValueError msg <> HTTPException status detail headers)
  /\ (forall request identifier retry_after self',
        find_request (args ++ map snd kwargs) = Some request ->
        default default_identifier identifier_func request = Ok identifier ->
        check_rate_limit w identifier requests_limit window_seconds self
          = (Ok (false, retry_after), self') ->
        call = (Raise (HTTPException 429
                         ("Rate limit exceeded. Try again in "
                            +:+ pretty retry_after +:+ " seconds.")
                         [("Retry-After", pretty retry_after)]), self'))
  /\ (forall request identifier retry_after self',
        find_request (args ++ map snd kwargs) = Some request ->
        default default_identifier identifier_func request = Ok identifier ->
        check_rate_limit w identifier requests_limit window_seconds self
          = (Ok (true, retry_after), self') ->
        call = (func args kwargs, self')).
Proof.
  intros call. subst call. unfold rate_limit, wrapper.
  cbv zeta. rewrite find_request_app.
  split; [| split].
  - intros Hnone. rewrite Hnone. eexists. split; [reflexivity | discriminate].
  - intros request identifier retry_after self' Hreq Hid Hcheck.
    rewrite Hreq. unfold bind, lift_outcome. rewrite Hid, Hcheck.
    reflexivity.
  - intros request identifier retry_after self' Hreq Hid Hcheck.
    rewrite Hreq. unfold bind, lift_outcome. rewrite Hid, Hcheck.
    reflexivity.
Qed.

(** ** The token bucket *)

Lemma inject_Z_sub (x y : Z) :
  (inject_Z (x - y) == inject_Z x - inject_Z y)%Q.
Proof.
  unfold Z.sub. rewrite inject_Z_plus, inject_Z_opp. reflexivity.
Qed.

Lemma num_q_sub (a b : num) :
  (num_q (num_sub a b) == num_q a - num_q b)%Q.
Proof.
  destruct a, b; simpl; try reflexivity. apply inject_Z_sub.
Qed.

Lemma num_min_le_r (a b : num) : (num_q (num_min a b) <= num_q b)%Q.
Proof.
  unfold num_min. destruct (Qltb (num_q b) (num_q a)) eqn:E.
  - lra.
  - apply Qltb_false in E. exact E.
Qed.

Lemma refill_rate_positive (l w : Z) :
  0 < l -> 0 < w -> (0 < inject_Z l / inject_Z w)%Q.
Proof.
  intros Hl Hw. rewrite Zlt_Qlt in Hl, Hw.
  apply Qlt_shift_div_l; [exact Hw |]. change (inject_Z 0) with 0%Q in *. lra.
Qed.

Lemma int_truediv_ok (l w : Z) :
  w <> 0 -> int_truediv l w = Ok (inject_Z l / inject_Z w)%Q.
Proof.
  intros Hw. unfold int_truediv.
  destruct (w =? 0) eqn:E; [apply Z.eqb_eq in E; contradiction | reflexivity].
Qed.

Lemma float_div_ok (x y : Q) : (0 < y)%Q -> float_div x y = Ok (x / y)%Q.
Proof.
  intros Hy. unfold float_div. destruct (Qeq_bool y 0) eqn:E; [| reflexivity].
  apply Qeq_bool_iff in E. lra.
Qed.

(** [int(x + 0.5)] is the integer nearest to a float [x] that is not
    negative, the half going up. *)
Lemma int_of_float_half_nearest (x : Q) :
  (0 <= x)%Q ->
  (inject_Z (int_of_float (x + (1 # 2))) - (1 # 2) <= x)%Q
  /\ (x < inject_Z (int_of_float (x + (1 # 2))) + (1 # 2))%Q.
Proof.
  intros Hx. rewrite int_of_float_floor by lra.
  pose proof (Qfloor_le (x + (1 # 2))) as Hle.
  pose proof (Qlt_floor (x + (1 # 2))) as Hlt.
  rewrite inject_Z_plus in Hlt. change (inject_Z 1) with 1%Q in Hlt.
  split; lra.
Qed.

Section TokenBucketRecorded.
Context {S0 : Type} {backend_ops : RateLimiter S0}.

Lemma get_bucket_data_recorded (key : string) s log cap :
  TokenBucketRateLimiter._get_bucket_data key (recorded s log cap)
  = (fst (get_data key s), recorded (snd (get_data key s)) log cap).
Proof.
  unfold TokenBucketRateLimiter._get_bucket_data,
    TokenBucketRateLimiter.on_storage, recorded.
  cbn. unfold Recording.get_data, Recording.on_inner. cbn.
  destruct (get_data key s). reflexivity.
Qed.

Lemma set_bucket_data_recorded (key : string) value ttl s log cap :
  TokenBucketRateLimiter._set_bucket_data key value ttl (recorded s log cap)
  = (match fst (set_data key value ttl s) with
     | Ok _ => Ok VNone
     | Raise e => Raise e
     end,
     recorded (snd (set_data key value ttl s))
       (log ++ [(key, value, ttl)]) cap).
Proof.
  unfold TokenBucketRateLimiter._set_bucket_data,
    TokenBucketRateLimiter.on_storage, bind, recorded.
  cbn. unfold Recording.set_data. cbn.
  destruct (set_data key value ttl s) as [[r | e] s']; reflexivity.
Qed.

(** C4.  When either read gives [None], the check writes the token
    entry [capacity - 1] and then [last_update = now], each with a
    time-to-live of twice the window, and allows the request.  With a
    limit of 5 and no configured capacity the token value written is
    the int 4, which compares equal to 4.0. *)
Theorem token_bucket_first_check (w : world) (identifier : string)
    (requests_limit window_seconds : Z) (cap : option num)
    (s s1 s2 s3 s4 : S0) (log : list (string * pyval * option Z))
    (tokens last r1 r2 : pyval) :
  let bucket_key := "bucket:" +:+ identifier in
  let last_update_key := "last_update:" +:+ identifier in
  let C := capacity_or_limit cap requests_limit in
  let ttl := Some (window_seconds * 2) in
  window_seconds <> 0 ->
  get_data bucket_key s = (Ok tokens, s1) ->
  get_data last_update_key s1 = (Ok last, s2) ->
  tokens = VNone \/ last = VNone ->
  set_data bucket_key (VNum (num_sub C (NInt 1))) ttl s2 = (Ok r1, s3) ->
  set_data last_update_key (VFloat (time_time w)) ttl s3 = (Ok r2, s4) ->
  check_rate_limit w identifier requests_limit window_seconds
    (recorded s log cap)
  = (Ok (true, 0),
     recorded s4
       (log ++ [(bucket_key, VNum (num_sub C (NInt 1)), ttl);
                (last_update_key, VFloat (time_time w), ttl)])
       cap)
  /\ (num_q (num_sub C (NInt 1)) == num_q C - 1)%Q
  /\ (cap = None -> requests_limit = 5 ->
      num_sub C (NInt 1) = NInt 4
      /\ num_eqb (NInt 4) (NFloat (4 # 1)) = true).
Proof.
  intros bucket_key last_update_key C ttl Hw Hg1 Hg2 Hnone Hs1 Hs2.
  split; [| split].
  - cbn. unfold TokenBucketRateLimiter.check_rate_limit, bind, lift_outcome.
    rewrite (int_truediv_ok _ _ Hw).
    fold bucket_key last_update_key.
    rewrite get_bucket_data_recorded, Hg1. cbn [fst snd].
    rewrite get_bucket_data_recorded, Hg2. cbn [fst snd].
    assert (is_none tokens || is_none last = true) as ->
      by (destruct Hnone; subst; [reflexivity | apply orb_true_r]).
    cbn [recorded TokenBucketRateLimiter.bucket_capacity].
    fold (recorded s2 log cap). fold C ttl.
    rewrite set_bucket_data_recorded, Hs1. cbn [fst snd].
    rewrite set_bucket_data_recorded, Hs2. cbn [fst snd].
    rewrite <- app_assoc. reflexivity.
  - apply num_q_sub.
  - intros -> ->. split; reflexivity.
Qed.


End TokenBucketRecorded.

(** ** Every token value written is within the capacity *)

Section TokenBucketWrites.
Context {S0 : Type} {backend_ops : RateLimiter S0}.

Lemma bucket_write_ok (C n : num) (identifier : string) (ttl : option Z) :
  (0 <= num_q n)%Q -> (num_q n <= num_q C)%Q ->
  token_write_ok C ("bucket:" +:+ identifier, VNum n, ttl) = true.
Proof.
  intros Hn HC. unfold token_write_ok.
  assert (String.prefix "bucket:" ("bucket:" +:+ identifier) = true) as ->
    by (destruct identifier; reflexivity).
  apply andb_true_intro. split; apply Qleb_true; assumption.
Qed.

Lemma last_update_write_ok (C : num) (identifier : string) (v : pyval)
    (ttl : option Z) :
  token_write_ok C ("last_update:" +:+ identifier, v, ttl) = true.
Proof. reflexivity. Qed.

(** The call ended without a write. *)
Ltac no_write :=
  cbv beta iota; cbn [snd]; eexists _, [];
  split; [rewrite app_nil_r; reflexivity | reflexivity].

(** The call ended after one or two writes. *)
Ltac some_writes :=
  cbv beta iota; cbn [snd]; rewrite <- ?app_assoc; eexists _, _;
  split; [reflexivity | cbn [app forallb]].

(** One check appends to the record of writes, and what it appends is
    in order. *)
Lemma check_appends_ok_writes (w : world) (identifier : string)
    (requests_limit window_seconds : Z) (s : S0)
    (log : list (string * pyval * option Z)) (cap : option num) :
  let C := capacity_or_limit cap requests_limit in
  (1 <= num_q C)%Q ->
  exists s' extra,
    snd (check_rate_limit w identifier requests_limit window_seconds
           (recorded s log cap))
    = recorded s' (log ++ extra) cap
    /\ forallb (token_write_ok C) extra = true.
Proof.
  intros C HC.
  assert (token_write_ok C
            ("bucket:" +:+ identifier, VNum (num_sub C (NInt 1)),
             Some (window_seconds * 2)) = true) as Hinit.
  { apply bucket_write_ok; rewrite num_q_sub;
      change (num_q (NInt 1)) with 1%Q; lra. }
  cbn. unfold TokenBucketRateLimiter.check_rate_limit, bind, lift_outcome.
  destruct (int_truediv requests_limit window_seconds) as [rate | e];
    [| no_write].
  rewrite get_bucket_data_recorded.
  destruct (get_data ("bucket:" +:+ identifier) s) as [[tokens | e] s1];
    cbn [fst snd]; [| no_write].
  rewrite get_bucket_data_recorded.
  destruct (get_data ("last_update:" +:+ identifier) s1)
    as [[last | e] s2]; cbn [fst snd]; [| no_write].
  cbn [recorded TokenBucketRateLimiter.bucket_capacity].
  fold (recorded s2 log cap). fold C.
  destruct (is_none tokens || is_none last).
  - rewrite set_bucket_data_recorded.
    destruct (set_data _ _ _ s2) as [[r1 | e] s3]; cbn [fst snd].
    2:{ some_writes. rewrite Hinit. reflexivity. }
    rewrite set_bucket_data_recorded.
    destruct (set_data _ _ _ s3) as [[r2 | e] s4]; cbn [fst snd].
    all: some_writes; rewrite Hinit; reflexivity.
  - destruct (float_if_str tokens) as [tokens' | e]; [| no_write].
    destruct (float_if_str last) as [last' | e]; [| no_write].
    destruct (float_sub_val (time_time w) last') as [elapsed | e];
      [| no_write].
    destruct (val_add_float tokens' (elapsed * rate)) as [total | e];
      [| no_write].
    set (new_tokens := num_min (NFloat total) C).
    destruct (Qleb 1 (num_q new_tokens)) eqn:Hge.
    + apply Qleb_true in Hge.
      assert (token_write_ok C
                ("bucket:" +:+ identifier,
                 VNum (num_sub new_tokens (NInt 1)),
                 Some (window_seconds * 2)) = true) as Htake.
      { pose proof (num_min_le_r (NFloat total) C) as Hcap.
        fold new_tokens in Hcap.
        apply bucket_write_ok; rewrite num_q_sub;
          change (num_q (NInt 1)) with 1%Q; lra. }
      rewrite set_bucket_data_recorded.
      destruct (set_data _ _ _ s2) as [[r1 | e] s3]; cbn [fst snd].
      2:{ some_writes. rewrite Htake. reflexivity. }
      rewrite set_bucket_data_recorded.
      destruct (set_data _ _ _ s3) as [[r2 | e] s4]; cbn [fst snd].
      all: some_writes; rewrite Htake; reflexivity.
    + destruct (float_div (1 - num_q new_tokens) rate) as [wait | e];
        [| no_write].
      rewrite set_bucket_data_recorded.
      destruct (set_data _ _ _ s2) as [[r1 | e] s3]; cbn [fst snd].
      all: some_writes; reflexivity.
Qed.

Lemma run_calls_ok_writes (cap : option num) (C : num)
    (calls : list (world * string * Z * Z)) :
  (1 <= num_q C)%Q ->
  Forall (fun '(_, _, requests_limit, _) =>
            capacity_or_limit cap requests_limit = C) calls ->
  forall (s : S0) (log : list (string * pyval * option Z)),
    forallb (token_write_ok C) log = true ->
    exists s' log',
      snd (run_calls calls (recorded s log cap)) = recorded s' log' cap
      /\ forallb (token_write_ok C) log' = true.
Proof.
  intros HC. induction calls as [| [[[w identifier] l] win] calls IH];
    intros Hcalls s log Hlog.
  - exists s, log. split; [reflexivity | exact Hlog].
  - apply Forall_cons in Hcalls as [Hcall Hrest]. cbv beta iota in Hcall.
    cbn [run_calls].
    destruct (check_appends_ok_writes w identifier l win s log cap)
      as (s' & extra & Hstep & Hextra).
    { rewrite Hcall. exact HC. }
    rewrite Hcall in Hextra.
    destruct (check_rate_limit w identifier l win (recorded s log cap))
      as [o st]. cbn [snd] in Hstep. subst st.
    destruct (IH Hrest s' (log ++ extra)) as (s'' & log' & Hrun & Hlog').
    { rewrite forallb_app, Hlog, Hextra. reflexivity. }
    destruct (run_calls calls (recorded s' (log ++ extra) cap))
      as [os st]. cbn [snd] in Hrun |- *.
    exists s'', log'. split; assumption.
Qed.

(** C7.  Whatever the backend, the calls and the times between them:
    when every call has the same effective capacity [C >= 1], each
    token value handed to [set_data] is a number between 0 and [C]. *)
Theorem token_writes_within_capacity (backend : S0) (cap : option num)
    (C : num) (calls : list (world * string * Z * Z)) :
  (1 <= num_q C)%Q ->
  Forall (fun '(_, _, requests_limit, _) =>
            capacity_or_limit cap requests_limit = C) calls ->
  forallb (token_write_ok C)
    (Recording.set_calls
       (TokenBucketRateLimiter.storage
          (snd (run_calls calls
                  (TokenBucketRateLimiter.init (Recording.init backend)
                     cap)))))
  = true.
Proof.
  intros HC Hcalls.
  destruct (run_calls_ok_writes cap C calls HC Hcalls backend [])
    as (s' & log' & Hrun & Hlog'); [reflexivity |].
  change (TokenBucketRateLimiter.init (Recording.init backend) cap)
    with (recorded backend [] cap).
  rewrite Hrun. exact Hlog'.
Qed.

End TokenBucketWrites.

(** ** The token bucket over the in-memory backend *)

Lemma bucket_last_update_keys_differ (identifier : string) :
  "bucket:" +:+ identifier <> "last_update:" +:+ identifier.
Proof. intros Heq. cbv [String.append] in Heq. discriminate Heq. Qed.

Section TokenBucketInMemory.

(** A token bucket over an in-memory backend in state [st]. *)
Let over (st : InMemoryRateLimiter.t) (cap : option num)
    : TokenBucketRateLimiter.t InMemoryRateLimiter.t :=
  TokenBucketRateLimiter.init st cap.

Let stored (st : InMemoryRateLimiter.t) (key : string) : option pyval :=
  InMemoryRateLimiter.data_store st !! key.

Lemma get_bucket_data_in_memory (key : string) st cap :
  TokenBucketRateLimiter._get_bucket_data key (over st cap)
  = (Ok (default VNone (stored st key)), over st cap).
Proof.
  unfold TokenBucketRateLimiter._get_bucket_data,
    TokenBucketRateLimiter.on_storage, over, stored. cbn.
  unfold InMemoryRateLimiter.get_data.
  destruct (InMemoryRateLimiter.data_store st !! key); reflexivity.
Qed.

Lemma set_bucket_data_in_memory (key : string) value ttl st cap :
  TokenBucketRateLimiter._set_bucket_data key value ttl (over st cap)
  = (Ok VNone,
     over (snd (InMemoryRateLimiter.set_data key value ttl st)) cap).
Proof. reflexivity. Qed.

(** What a check that returned leaves in the store for its identifier:
    a pair under the [last_update] key, and under the token key a value
    that is not [None] and that [float_if_str] accepts, a pair when the
    request was allowed. *)
Lemma check_leaves_pairs (w : world) (identifier : string)
    (requests_limit window_seconds : Z) st cap decision self1 :
  check_rate_limit w identifier requests_limit window_seconds (over st cap)
    = (Ok decision, self1) ->
  exists st1 tokens a b,
    self1 = over st1 cap
    /\ stored st1 ("last_update:" +:+ identifier) = Some (VPair a b)
    /\ stored st1 ("bucket:" +:+ identifier) = Some tokens
    /\ is_none tokens = false
    /\ (exists v, float_if_str tokens = Ok v)
    /\ (fst decision = true -> exists c d, tokens = VPair c d).
Proof.
  pose proof (bucket_last_update_keys_differ identifier) as Hne.
  cbn. unfold TokenBucketRateLimiter.check_rate_limit, bind, lift_outcome.
  destruct (int_truediv requests_limit window_seconds) as [rate | e];
    [| discriminate].
  change {| TokenBucketRateLimiter.storage := st;
            TokenBucketRateLimiter.bucket_capacity := cap |}
    with (over st cap).
  rewrite !get_bucket_data_in_memory.
  cbn [TokenBucketRateLimiter.bucket_capacity over TokenBucketRateLimiter.init].
  fold (over st cap).
  destruct (is_none (default VNone (stored st ("bucket:" +:+ identifier)))
            || is_none (default VNone
                          (stored st ("last_update:" +:+ identifier))))
    eqn:Hfresh.
  - rewrite !set_bucket_data_in_memory. intros Heq.
    injection Heq as <- <-.
    eexists _, _, _, _. split; [reflexivity |].
    unfold stored. cbn [InMemoryRateLimiter.data_store].
    split; [apply lookup_insert_eq |].
    split; [rewrite lookup_insert_ne by congruence; apply lookup_insert_eq |].
    repeat split; eauto.
  - apply orb_false_elim in Hfresh as [Htok Hlast].
    destruct (stored st ("bucket:" +:+ identifier)) as [tokens |] eqn:Hst;
      [| discriminate Htok].
    cbn [default from_option id] in *.
    destruct (float_if_str tokens) as [tokens' | e] eqn:Hfloat;
      [| discriminate].
    destruct (float_if_str (default VNone _)) as [last' | e];
      [| discriminate].
    destruct (float_sub_val (time_time w) last') as [elapsed | e];
      [| discriminate].
    destruct (val_add_float tokens' (elapsed * rate)) as [total | e];
      [| discriminate].
    destruct (Qleb 1 _).
    + rewrite !set_bucket_data_in_memory. intros Heq.
      injection Heq as <- <-.
      eexists _, _, _, _. split; [reflexivity |].
      unfold stored. cbn [InMemoryRateLimiter.data_store].
      split; [apply lookup_insert_eq |].
      split; [rewrite lookup_insert_ne by congruence; apply lookup_insert_eq |].
      repeat split; eauto.
    + destruct (float_div _ rate) as [wait | e]; [| discriminate].
      rewrite !set_bucket_data_in_memory. intros Heq.
      injection Heq as <- <-.
      eexists _, tokens, _, _. split; [reflexivity |].
      unfold stored in *. cbn [InMemoryRateLimiter.data_store].
      split; [apply lookup_insert_eq |].
      split; [rewrite lookup_insert_ne by congruence; exact Hst |].
      repeat split; eauto. discriminate.
Qed.

(** With a pair under [last_update], the arithmetic of the check is not
    defined and the check raises, leaving the store as it was. *)
Lemma check_on_pair_raises (w : world) (identifier : string)
    (requests_limit window_seconds : Z) st cap tokens a b v :
  stored st ("last_update:" +:+ identifier) = Some (VPair a b) ->
  stored st ("bucket:" +:+ identifier) = Some tokens ->
  is_none tokens = false ->
  float_if_str tokens = Ok v ->
  check_rate_limit w identifier requests_limit window_seconds (over st cap)
  = (Raise (if window_seconds =? 0 then ZeroDivisionError else TypeError),
     over st cap).
Proof.
  intros Hlast Htok Hnone Hfloat.
  cbn. unfold TokenBucketRateLimiter.check_rate_limit, bind, lift_outcome.
  unfold int_truediv. destruct (window_seconds =? 0); [reflexivity |].
  change {| TokenBucketRateLimiter.storage := st;
            TokenBucketRateLimiter.bucket_capacity := cap |}
    with (over st cap).
  rewrite !get_bucket_data_in_memory, Hlast, Htok.
  cbn [default from_option id is_none]. rewrite Hnone. cbn [orb].
  rewrite Hfloat. reflexivity.
Qed.

(** C9.  Over the in-memory backend, once a check for an identifier has
    returned, the store holds a [(value, ttl)] pair under its
    [last_update] key, and under its token key too when the request was
    allowed; adding a float to such a pair is a [TypeError]; and every
    later check for that identifier raises (a [TypeError] for a window
    that is not 0) and leaves the store as it was: it returns no
    decision. *)
Theorem token_bucket_in_memory_second_check
    (self self1 : TokenBucketRateLimiter.t InMemoryRateLimiter.t)
    (w1 w2 : world) (identifier : string)
    (limit1 window1 limit2 window2 : Z) (decision : bool * Z) :
  check_rate_limit w1 identifier limit1 window1 self = (Ok decision, self1) ->
  check_rate_limit w2 identifier limit2 window2 self1
    = (Raise (if window2 =? 0 then ZeroDivisionError else TypeError), self1)
  /\ (exists a b,
        get_data ("last_update:" +:+ identifier)
          (TokenBucketRateLimiter.storage self1)
        = (Ok (VPair a b), TokenBucketRateLimiter.storage self1)
        /\ float_sub_val (time_time w2) (VPair a b) = Raise TypeError)
  /\ (fst decision = true ->
      exists c d,
        get_data ("bucket:" +:+ identifier)
          (TokenBucketRateLimiter.storage self1)
        = (Ok (VPair c d), TokenBucketRateLimiter.storage self1)
        /\ forall tokens_to_add,
             val_add_float (VPair c d) tokens_to_add = Raise TypeError).
Proof.
  destruct self as [st cap]. intros Hfirst.
  apply (check_leaves_pairs w1 identifier limit1 window1 st cap) in Hfirst
    as (st1 & tokens & a & b & -> & Hlast & Htok & Hnone & [v Hfloat] & Hpair).
  split; [| split].
  - apply (check_on_pair_raises w2 identifier limit2 window2 st1 cap
             tokens a b v); assumption.
  - exists a, b. split; [| reflexivity].
    cbn. unfold InMemoryRateLimiter.get_data.
    unfold stored in Hlast. rewrite Hlast. reflexivity.
  - intros Hallowed. destruct (Hpair Hallowed) as (c & d & ->).
    exists c, d. split; [| reflexivity].
    cbn. unfold InMemoryRateLimiter.get_data.
    unfold stored in Htok. rewrite Htok. reflexivity.
Qed.

End TokenBucketInMemory.

(** ** The token bucket over the redis backend *)

Lemma redis_get_data_none (key : string) (r : RedisRateLimiter.t) :
  get_data key r = (Ok VNone, r).
Proof. reflexivity. Qed.

Lemma redis_set_data_number (key : string) (n : num) (ttl : Z)
    (r : RedisRateLimiter.t) :
  0 < ttl ->
  exists r', set_data key (VNum n) (Some ttl) r = (Ok VNone, r').
Proof.
  intros Httl. cbn. unfold RedisRateLimiter.set_data, bind, lift_outcome.
  assert (negb (ttl =? 0) = true) as ->
    by (apply negb_true_iff, Z.eqb_neq; lia).
  assert ((0 <? ttl) = true) as Hpos by (apply Z.ltb_lt; exact Httl).
  destruct n; cbn; unfold Redis.do_setex; rewrite Hpos; eexists; reflexivity.
Qed.

(** A value the client accepts, stored with a positive time-to-live. *)
Lemma redis_set_data_encoded (key : string) (value : pyval)
    (b : Redis.rbytes) (ttl : Z) (r : RedisRateLimiter.t) :
  Redis.encode value = Ok b -> 0 < ttl ->
  set_data key value (Some ttl) r
  = (Ok VNone,
     {| RedisRateLimiter.redis :=
          <[key := (b, Some ttl)]> (RedisRateLimiter.redis r);
        RedisRateLimiter.prefix := RedisRateLimiter.prefix r |}).
Proof.
  intros Hb Httl. cbn. unfold RedisRateLimiter.set_data, bind, lift_outcome.
  rewrite Hb.
  assert (negb (ttl =? 0) = true) as ->
    by (apply negb_true_iff, Z.eqb_neq; lia).
  assert ((0 <? ttl) = true) as Hpos by (apply Z.ltb_lt; exact Httl).
  cbn. unfold Redis.do_setex. rewrite Hpos. reflexivity.
Qed.

Section TokenBucketRedis.
Variables (identifier : string) (requests_limit window_seconds : Z).

(** Every read gives [None], so the check takes the first-request path:
    it either raises or allows. *)
Lemma redis_check_not_denied (w : world)
    (self : TokenBucketRateLimiter.t RedisRateLimiter.t) :
  forall retry_after,
    fst (check_rate_limit w identifier requests_limit window_seconds self)
    <> Ok (false, retry_after).
Proof.
  intros retry_after. destruct self as [st cap]. cbn.
  unfold TokenBucketRateLimiter.check_rate_limit, bind, lift_outcome.
  destruct (int_truediv requests_limit window_seconds) as [rate | e];
    [| discriminate].
  unfold TokenBucketRateLimiter._set_bucket_data,
    TokenBucketRateLimiter.on_storage, bind.
  cbn [TokenBucketRateLimiter.storage TokenBucketRateLimiter.bucket_capacity].
  destruct (set_data _ _ _ st) as [[r1 | e] s1]; [| discriminate].
  cbn [ret TokenBucketRateLimiter.storage].
  destruct (set_data _ _ _ s1) as [[r2 | e] s2]; discriminate.
Qed.

Lemma redis_check_allowed (w : world)
    (self : TokenBucketRateLimiter.t RedisRateLimiter.t) :
  0 < window_seconds ->
  fst (check_rate_limit w identifier requests_limit window_seconds self)
  = Ok (true, 0).
Proof.
  intros Hw. destruct self as [st cap]. cbn.
  unfold TokenBucketRateLimiter.check_rate_limit, bind, lift_outcome.
  rewrite (int_truediv_ok requests_limit window_seconds) by lia.
  unfold TokenBucketRateLimiter._set_bucket_data,
    TokenBucketRateLimiter.on_storage, bind.
  cbn [TokenBucketRateLimiter.storage TokenBucketRateLimiter.bucket_capacity].
  destruct (redis_set_data_number ("bucket:" +:+ identifier)
              (num_sub (capacity_or_limit cap requests_limit) (NInt 1))
              (window_seconds * 2) st)
    as [s1 ->]; [lia |].
  cbn [ret TokenBucketRateLimiter.storage].
  destruct (redis_set_data_number ("last_update:" +:+ identifier)
              (NFloat (time_time w)) (window_seconds * 2) s1)
    as [s2 Hset2]; [lia |].
  unfold VFloat. rewrite Hset2. reflexivity.
Qed.

(** What one check over the redis backend does for a positive window:
    the two writes of the first-request path. *)
Lemma redis_check_initialises (w : world) (st : RedisRateLimiter.t)
    (cap : option num) :
  0 < window_seconds ->
  exists b,
    Redis.encode
      (VNum (num_sub (capacity_or_limit cap requests_limit) (NInt 1)))
    = Ok b
    /\ check_rate_limit w identifier requests_limit window_seconds
         (TokenBucketRateLimiter.init st cap)
       = (Ok (true, 0),
          TokenBucketRateLimiter.init
            {| RedisRateLimiter.redis :=
                 <["last_update:" +:+ identifier :=
                     (Redis.BFloat (time_time w), Some (window_seconds * 2))]>
                   (<["bucket:" +:+ identifier :=
                        (b, Some (window_seconds * 2))]>
                      (RedisRateLimiter.redis st));
               RedisRateLimiter.prefix := RedisRateLimiter.prefix st |}
            cap).
Proof.
  intros Hw.
  assert (exists b,
             Redis.encode
               (VNum (num_sub (capacity_or_limit cap requests_limit)
                        (NInt 1)))
             = Ok b) as [b Hb]
    by (destruct (num_sub _ _); eexists; reflexivity).
  exists b. split; [exact Hb |].
  unfold TokenBucketRateLimiter.init. cbn.
  unfold TokenBucketRateLimiter.check_rate_limit, bind, lift_outcome.
  rewrite (int_truediv_ok requests_limit window_seconds) by lia.
  unfold TokenBucketRateLimiter._set_bucket_data,
    TokenBucketRateLimiter.on_storage, bind.
  cbn [TokenBucketRateLimiter.storage TokenBucketRateLimiter.bucket_capacity].
  rewrite (redis_set_data_encoded _ _ b (window_seconds * 2) st Hb)
    by lia.
  cbn [ret TokenBucketRateLimiter.storage].
  rewrite (redis_set_data_encoded _ (VFloat (time_time w))
             (Redis.BFloat (time_time w)) (window_seconds * 2) _ eq_refl)
    by lia.
  reflexivity.
Qed.

(** What it does for a window that is not positive: it raises and
    leaves the store alone. *)
Lemma redis_check_raises (w : world)
    (self : TokenBucketRateLimiter.t RedisRateLimiter.t) :
  window_seconds <= 0 ->
  exists e,
    check_rate_limit w identifier requests_limit window_seconds self
    = (Raise e, self).
Proof.
  intros Hw. destruct self as [[d p] cap].
  cbn. unfold TokenBucketRateLimiter.check_rate_limit, bind, lift_outcome.
  unfold int_truediv. destruct (window_seconds =? 0) eqn:Hzero.
  - eexists. reflexivity.
  - apply Z.eqb_neq in Hzero.
    assert (negb (window_seconds * 2 =? 0) = true) as Hnz
      by (apply negb_true_iff, Z.eqb_neq; lia).
    assert ((0 <? window_seconds * 2) = false) as Hneg
      by (apply Z.ltb_ge; lia).
    unfold TokenBucketRateLimiter._set_bucket_data,
      TokenBucketRateLimiter.on_storage, bind.
    cbn. unfold RedisRateLimiter.set_data, bind, lift_outcome.
    destruct (num_sub (capacity_or_limit cap requests_limit) (NInt 1));
      cbn; rewrite Hnz; cbn; unfold Redis.do_setex; rewrite Hneg;
      eexists; reflexivity.
Qed.

(** A run for a positive window keeps the configured capacity. *)
Lemma redis_run_keeps_capacity (ws : list world)
    (self : TokenBucketRateLimiter.t RedisRateLimiter.t) :
  0 < window_seconds ->
  TokenBucketRateLimiter.bucket_capacity
    (snd (run_checks identifier requests_limit window_seconds ws self))
  = TokenBucketRateLimiter.bucket_capacity self.
Proof.
  intros Hw. revert self. induction ws as [| w ws' IH]; intros self.
  - reflexivity.
  - destruct self as [st cap].
    destruct (redis_check_initialises w st cap Hw) as (b & _ & Hcheck).
    unfold TokenBucketRateLimiter.init in Hcheck.
    cbn [run_checks]. rewrite Hcheck.
    match goal with
    | |- context [run_checks _ _ _ ws' ?self1] =>
        specialize (IH self1);
        destruct (run_checks identifier requests_limit window_seconds ws'
                    self1) as [os self2]
    end.
    exact IH.
Qed.

(** C10.  [get_data] of the redis limiter gives [None] for every key and
    leaves the store alone, also right after a [set_data] for that key.
    A token bucket over it is therefore never denied by any call of any
    run, and for a positive window every call of a run is allowed.  Each
    such call, whatever the store holds, takes the first-request path:
    it sets the token entry to [capacity - 1] and [last_update] to the
    current time, both with a time-to-live of twice the window, under
    keys that do not carry the limiter's prefix, and touches nothing
    else.  So after any run the token entry holds [capacity - 1]: no
    token is ever taken.  For a window that is not positive every call
    raises and leaves the store as it was. *)
Theorem token_bucket_over_redis_always_allows (ws : list world)
    (self : TokenBucketRateLimiter.t RedisRateLimiter.t) :
  (forall (r : RedisRateLimiter.t) key, get_data key r = (Ok VNone, r))
  /\ (forall (r : RedisRateLimiter.t) key value ttl,
        fst (get_data key (snd (set_data key value ttl r))) = Ok VNone)
  /\ Forall (fun o => forall retry_after, o <> Ok (false, retry_after))
       (fst (run_checks identifier requests_limit window_seconds ws self))
  /\ (0 < window_seconds ->
      fst (run_checks identifier requests_limit window_seconds ws self)
      = repeat (Ok (true, 0)) (length ws))
  /\ (0 < window_seconds ->
      forall (w : world) (st : RedisRateLimiter.t) (cap : option num),
      exists b,
        Redis.encode
          (VNum (num_sub (capacity_or_limit cap requests_limit) (NInt 1)))
        = Ok b
        /\ check_rate_limit w identifier requests_limit window_seconds
             (TokenBucketRateLimiter.init st cap)
           = (Ok (true, 0),
              TokenBucketRateLimiter.init
                {| RedisRateLimiter.redis :=
                     <["last_update:" +:+ identifier :=
                         (Redis.BFloat (time_time w),
                          Some (window_seconds * 2))]>
                       (<["bucket:" +:+ identifier :=
                            (b, Some (window_seconds * 2))]>
                          (RedisRateLimiter.redis st));
                   RedisRateLimiter.prefix := RedisRateLimiter.prefix st |}
                cap))
  /\ (0 < window_seconds ->
      forall last_call : world,
      let final :=
        snd (run_checks identifier requests_limit window_seconds
               (ws ++ [last_call]) self) in
      let store :=
        RedisRateLimiter.redis (TokenBucketRateLimiter.storage final) in
      exists b,
        Redis.encode
          (VNum (num_sub
                   (capacity_or_limit
                      (TokenBucketRateLimiter.bucket_capacity self)
                      requests_limit)
                   (NInt 1)))
        = Ok b
        /\ store !! ("bucket:" +:+ identifier)
           = Some (b, Some (window_seconds * 2))
        /\ store !! ("last_update:" +:+ identifier)
           = Some (Redis.BFloat (time_time last_call),
                   Some (window_seconds * 2)))
  /\ (window_seconds <= 0 ->
      forall (w : world) (self0 : TokenBucketRateLimiter.t RedisRateLimiter.t),
      exists e,
        check_rate_limit w identifier requests_limit window_seconds self0
        = (Raise e, self0)).
Proof.
  split; [intros; reflexivity |].
  split; [intros; reflexivity |].
  split; [| split; [| split; [| split]]].
  - revert self. induction ws as [| w ws' IH]; intros self.
    + constructor.
    + cbn [run_checks].
      pose proof (redis_check_not_denied w self) as Hstep.
      destruct (check_rate_limit w identifier requests_limit
                  window_seconds self) as [o self1].
      specialize (IH self1).
      destruct (run_checks identifier requests_limit window_seconds ws'
                  self1) as [os self2].
      constructor; assumption.
  - intros Hw. revert self. induction ws as [| w ws' IH]; intros self.
    + reflexivity.
    + cbn [run_checks].
      pose proof (redis_check_allowed w self Hw) as Hstep.
      destruct (check_rate_limit w identifier requests_limit
                  window_seconds self) as [o self1].
      specialize (IH self1).
      destruct (run_checks identifier requests_limit window_seconds ws'
                  self1) as [os self2].
      cbn [fst] in *. subst. reflexivity.
  - intros Hw w st cap. apply redis_check_initialises. exact Hw.
  - intros Hw last_call final store. subst store final.
    rewrite run_checks_app.
    pose proof (redis_run_keeps_capacity ws self Hw) as Hcap.
    destruct (run_checks identifier requests_limit window_seconds ws self)
      as [os [st cap]].
    cbn [snd TokenBucketRateLimiter.bucket_capacity] in Hcap. subst cap.
    destruct (redis_check_initialises last_call st
                (TokenBucketRateLimiter.bucket_capacity self) Hw)
      as (b & Hb & Hcheck).
    unfold TokenBucketRateLimiter.init in Hcheck.
    cbn [run_checks]. rewrite Hcheck.
    cbn [snd TokenBucketRateLimiter.storage RedisRateLimiter.redis].
    exists b. split; [exact Hb |]. split.
    + rewrite lookup_insert_ne
        by (apply not_eq_sym, bucket_last_update_keys_differ).
      apply lookup_insert_eq.
    + apply lookup_insert_eq.
  - intros Hw w self0. apply redis_check_raises. exact Hw.
Qed.

End TokenBucketRedis.

End Properties.

(** * Further properties *)

Section FurtherProperties.
Context {builtins : PyBuiltins}.

(** ** The in-memory fixed window, further *)

(** The three ways a check of the in-memory limiter can go, by the
    record it finds. *)
Lemma in_memory_check_cases (w : world) (identifier : string) (L W : Z)
    (self : InMemoryRateLimiter.t) :
  let now := time_time w in
  let check := InMemoryRateLimiter.check_rate_limit w identifier L W self in
  match InMemoryRateLimiter.request_records self !! identifier with
  | None =>
      check = (Ok (true, 0),
               InMemoryRateLimiter.put_record identifier (1, now) self)
  | Some (c, ws) =>
      ((inject_Z W < now - ws)%Q
       /\ check = (Ok (true, 0),
                   InMemoryRateLimiter.put_record identifier (1, now) self))
      \/ ((now - ws <= inject_Z W)%Q /\ L <= c
          /\ check = (Ok (false, int_of_float (ws + inject_Z W - now)), self))
      \/ ((now - ws <= inject_Z W)%Q /\ c < L
          /\ check = (Ok (true, 0),
                      InMemoryRateLimiter.put_record identifier (c + 1, ws)
                        self))
  end.
Proof.
  intros now check. subst check.
  unfold InMemoryRateLimiter.check_rate_limit. fold now.
  destruct (InMemoryRateLimiter.request_records self !! identifier)
    as [[c ws] |]; [| reflexivity].
  destruct (Qltb (inject_Z W) (now - ws)) eqn:Hexp.
  - left. apply Qltb_true in Hexp. auto.
  - apply Qltb_false in Hexp. right.
    destruct (L <=? c) eqn:Hc.
    + left. apply Z.leb_le in Hc. auto.
    + right. apply Z.leb_gt in Hc. auto.
Qed.

(** A denied check found a record at the limit, inside its window. *)
Lemma in_memory_denied_inv (w : world) (identifier : string) (L W : Z)
    (self self' : InMemoryRateLimiter.t) (retry_after : Z) :
  InMemoryRateLimiter.check_rate_limit w identifier L W self
    = (Ok (false, retry_after), self') ->
  exists c ws,
    InMemoryRateLimiter.request_records self !! identifier = Some (c, ws)
    /\ (time_time w - ws <= inject_Z W)%Q /\ L <= c
    /\ retry_after = int_of_float (ws + inject_Z W - time_time w)
    /\ self' = self.
Proof.
  intros Hdeny.
  pose proof (in_memory_check_cases w identifier L W self) as Hcases.
  cbv zeta in Hcases.
  destruct (InMemoryRateLimiter.request_records self !! identifier)
    as [[c ws] |].
  - destruct Hcases as [[_ Heq] | [(Hin & Hc & Heq) | (_ & _ & Heq)]];
      rewrite Heq in Hdeny; try discriminate.
    injection Hdeny as <- <-. exists c, ws. auto.
  - rewrite Hcases in Hdeny. discriminate.
Qed.

Lemma in_memory_expired (w : world) (identifier : string) (L W c : Z)
    (ws : Q) (self : InMemoryRateLimiter.t) :
  InMemoryRateLimiter.request_records self !! identifier = Some (c, ws) ->
  (inject_Z W < time_time w - ws)%Q ->
  InMemoryRateLimiter.check_rate_limit w identifier L W self
  = (Ok (true, 0),
     InMemoryRateLimiter.put_record identifier (1, time_time w) self).
Proof.
  intros Hrec Hexp. unfold InMemoryRateLimiter.check_rate_limit.
  rewrite Hrec. apply Qltb_true in Hexp. rewrite Hexp. reflexivity.
Qed.

(** X1.  Take a record whose window start is a clock reading of the
    current era, a check made at such a reading, and a window that ends
    more than a second before the era does: the float sums and
    differences of the check are then exact.  A client that is denied
    there and comes back after exactly the retry delay it was given is
    denied again; one second later it is allowed.  The denied check
    itself changes nothing. *)
Theorem in_memory_retry_after_is_one_short (identifier : string) (L W c : Z)
    (now window_start : Q) (self self' : InMemoryRateLimiter.t)
    (retry_after : Z) :
  InMemoryRateLimiter.request_records self !! identifier
    = Some (c, window_start) ->
  clock_reading window_start = true ->
  clock_reading now = true ->
  (window_start + inject_Z W + 1 < inject_Z 2147483648)%Q ->
  check_rate_limit (at_time now) identifier L W self
    = (Ok (false, retry_after), self') ->
  self' = self
  /\ (exists again,
        check_rate_limit (at_time (now + inject_Z retry_after)) identifier
          L W self
        = (Ok (false, again), self))
  /\ fst (check_rate_limit (at_time (now + inject_Z retry_after + 1))
            identifier L W self)
     = Ok (true, 0).
Proof.
  intros Hrecord _ _ _ Hdeny.
  apply in_memory_denied_inv in Hdeny
    as (c' & ws & Hrec & Hin & Hc & -> & ->).
  rewrite Hrecord in Hrec. injection Hrec as <- <-.
  cbn [time_time at_time] in *.
  set (x := (window_start + inject_Z W - now)%Q) in *.
  assert (0 <= x)%Q as Hx by (subst x; lra).
  rewrite (int_of_float_floor x Hx).
  pose proof (Qfloor_le x) as Hfloor.
  pose proof (Qlt_floor x) as Hceil.
  rewrite inject_Z_plus in Hceil. change (inject_Z 1) with 1%Q in Hceil.
  split; [reflexivity |]. split.
  - eexists.
    apply (in_memory_at_limit identifier L W _ window_start c self Hrecord);
      [subst x; lra | exact Hc].
  - change (@check_rate_limit _ InMemory_RateLimiter)
      with InMemoryRateLimiter.check_rate_limit.
    rewrite (in_memory_expired _ identifier L W c window_start self Hrecord);
      [reflexivity |].
    cbn [time_time at_time]. subst x. lra.
Qed.

(** One check keeps every count between 1 and the limit (or 1, for a
    limit below 1). *)
Lemma in_memory_check_keeps_counts (w : world) (identifier : string)
    (L W : Z) (self : InMemoryRateLimiter.t) :
  map_Forall (fun _ (r : Z * Q) => 1 <= fst r <= Z.max 1 L)
    (InMemoryRateLimiter.request_records self) ->
  map_Forall (fun _ (r : Z * Q) => 1 <= fst r <= Z.max 1 L)
    (InMemoryRateLimiter.request_records
       (snd (InMemoryRateLimiter.check_rate_limit w identifier L W self))).
Proof.
  intros Hinv.
  pose proof (in_memory_check_cases w identifier L W self) as Hcases.
  cbv zeta in Hcases.
  destruct (InMemoryRateLimiter.request_records self !! identifier)
    as [[c ws] |] eqn:Hrec.
  - pose proof (Hinv identifier (c, ws) Hrec) as Hc. cbn [fst] in Hc.
    destruct Hcases as [[_ Heq] | [(_ & _ & Heq) | (_ & Hlt & Heq)]];
      rewrite Heq; cbn [snd InMemoryRateLimiter.put_record
                          InMemoryRateLimiter.request_records].
    + apply map_Forall_insert_2; [cbn; lia | exact Hinv].
    + exact Hinv.
    + apply map_Forall_insert_2; [cbn; lia | exact Hinv].
  - rewrite Hcases. cbn [snd InMemoryRateLimiter.put_record
                           InMemoryRateLimiter.request_records].
    apply map_Forall_insert_2; [cbn; lia | exact Hinv].
Qed.

(** X2.  Whatever the clients, the clock readings and the windows, a limiter
    that started empty and was always asked with the same limit [L]
    holds for every client a count between 1 and [L] (1 for a limit
    below 1): a count never passes the limit. *)
Theorem in_memory_counts_within_limit (L : Z)
    (calls : list (world * string * Z * Z)) :
  Forall (fun '(_, _, requests_limit, _) => requests_limit = L) calls ->
  map_Forall (fun _ (r : Z * Q) => 1 <= fst r <= Z.max 1 L)
    (InMemoryRateLimiter.request_records
       (snd (run_calls calls InMemoryRateLimiter.init))).
Proof.
  intros Hcalls.
  assert (forall self,
             map_Forall (fun _ (r : Z * Q) => 1 <= fst r <= Z.max 1 L)
               (InMemoryRateLimiter.request_records self) ->
             map_Forall (fun _ (r : Z * Q) => 1 <= fst r <= Z.max 1 L)
               (InMemoryRateLimiter.request_records
                  (snd (run_calls calls self)))) as Hgen.
  { induction calls as [| [[[w identifier] l] win] calls IH];
      intros self Hinv; [exact Hinv |].
    apply Forall_cons in Hcalls as [Hl Hrest]. cbv beta iota in Hl. subst l.
    cbn [run_calls].
    pose proof (in_memory_check_keeps_counts w identifier L win self Hinv)
      as Hstep.
    change (@check_rate_limit _ InMemory_RateLimiter w identifier L win self)
      with (InMemoryRateLimiter.check_rate_limit w identifier L win self).
    destruct (InMemoryRateLimiter.check_rate_limit w identifier L win self)
      as [o self1]. cbn [snd] in Hstep.
    specialize (IH Hrest self1 Hstep).
    destruct (run_calls calls self1) as [os self2]. exact IH. }
  apply Hgen. cbn. apply map_Forall_empty.
Qed.

Lemma run_checks_cons {S} {limiter : RateLimiter S} (identifier : string)
    (L W : Z) (w : world) (ws : list world) (s : S) :
  fst (run_checks identifier L W (w :: ws) s)
  = fst (check_rate_limit w identifier L W s)
      :: fst (run_checks identifier L W ws
                (snd (check_rate_limit w identifier L W s))).
Proof.
  cbn [run_checks].
  destruct (check_rate_limit w identifier L W s) as [o s']. cbn [fst snd].
  destruct (run_checks identifier L W ws s') as [os s'']. reflexivity.
Qed.

(** Inside one window, from a record with count [c], the calls let
    through are as many as the limit still leaves room for. *)
Lemma in_memory_allowed_in_window (identifier : string) (L W : Z) (t0 : Q)
    (ts : list Q) :
  forall (c : Z) (self : InMemoryRateLimiter.t),
    InMemoryRateLimiter.request_records self !! identifier = Some (c, t0) ->
    Forall (fun t => (t - t0 <= inject_Z W)%Q) ts ->
    Z.of_nat
      (count_allowed
         (fst (run_checks identifier L W (map at_time ts) self)))
    = Z.min (Z.of_nat (length ts)) (Z.max 0 (L - c)).
Proof.
  induction ts as [| t ts IH]; intros c self Hrec Hin.
  - cbn. lia.
  - apply Forall_cons in Hin as [Ht Hts].
    cbn [map]. rewrite run_checks_cons.
    change (@check_rate_limit _ InMemory_RateLimiter)
      with InMemoryRateLimiter.check_rate_limit.
    destruct (Z_lt_le_dec c L) as [Hlt | Hge].
    + rewrite (in_memory_under_limit identifier L W t t0 c self Hrec Ht Hlt).
      cbn [fst snd]. unfold count_allowed in *.
      cbn [List.filter is_allowed length].
      rewrite Nat2Z.inj_succ.
      rewrite (IH (c + 1)
                 (InMemoryRateLimiter.put_record identifier (c + 1, t0) self));
        [cbn [length]; lia | apply lookup_insert_eq | exact Hts].
    + rewrite (in_memory_at_limit identifier L W t t0 c self Hrec Ht Hge).
      cbn [fst snd]. unfold count_allowed in *.
      cbn [List.filter is_allowed].
      rewrite (IH c self Hrec Hts). cbn [length]. lia.
Qed.

(** X3.  Of the calls a client makes inside one window, the first included,
    exactly [min(number of calls, max(1, L))] are let through: never
    more than the limit, and one even for a limit below 1. *)
Theorem in_memory_allowed_per_window (identifier : string) (L W : Z)
    (t0 : Q) (ts : list Q) (self : InMemoryRateLimiter.t) :
  InMemoryRateLimiter.request_records self !! identifier = None ->
  Forall (fun t => (t - t0 <= inject_Z W)%Q) ts ->
  Z.of_nat
    (count_allowed
       (fst (run_checks identifier L W (map at_time (t0 :: ts)) self)))
  = Z.min (Z.of_nat (length (t0 :: ts))) (Z.max 1 L).
Proof.
  intros Hnone Hin. cbn [map]. rewrite run_checks_cons.
  change (@check_rate_limit _ InMemory_RateLimiter)
    with InMemoryRateLimiter.check_rate_limit.
  rewrite (in_memory_first identifier L W t0 self Hnone). cbn [fst snd].
  unfold count_allowed. cbn [List.filter is_allowed length].
  rewrite Nat2Z.inj_succ.
  pose proof (in_memory_allowed_in_window identifier L W t0 ts 1
                (InMemoryRateLimiter.put_record identifier (1, t0) self))
    as Hrest.
  unfold count_allowed in Hrest. rewrite Hrest;
    [lia | apply lookup_insert_eq | exact Hin].
Qed.

(** A check is a function of the record of its identifier alone: it
    gives the same decision in two states that agree on that record. *)
Lemma in_memory_decision_local (w : world) (identifier : string) (L W : Z)
    (s1 s2 : InMemoryRateLimiter.t) :
  InMemoryRateLimiter.request_records s1 !! identifier
  = InMemoryRateLimiter.request_records s2 !! identifier ->
  fst (InMemoryRateLimiter.check_rate_limit w identifier L W s1)
  = fst (InMemoryRateLimiter.check_rate_limit w identifier L W s2).
Proof.
  intros Heq. unfold InMemoryRateLimiter.check_rate_limit. rewrite Heq.
  destruct (InMemoryRateLimiter.request_records s2 !! identifier)
    as [[c ws] |]; [| reflexivity].
  destruct (Qltb _ _); [reflexivity |].
  destruct (L <=? c); reflexivity.
Qed.

(** What a check leaves: the data store as it was, and the records as
    they were but for the one of its identifier. *)
Lemma in_memory_check_frame (w : world) (identifier : string) (L W : Z)
    (self : InMemoryRateLimiter.t) :
  let self' := snd (InMemoryRateLimiter.check_rate_limit w identifier L W self) in
  InMemoryRateLimiter.data_store self' = InMemoryRateLimiter.data_store self
  /\ forall other, other <> identifier ->
       InMemoryRateLimiter.request_records self' !! other
       = InMemoryRateLimiter.request_records self !! other.
Proof.
  intros self'. subst self'.
  unfold InMemoryRateLimiter.check_rate_limit.
  destruct (InMemoryRateLimiter.request_records self !! identifier)
    as [[c ws] |].
  - destruct (Qltb _ _); [| destruct (L <=? c)]; cbn; split;
      try reflexivity; intros other Hne;
      try (apply lookup_insert_ne; congruence); reflexivity.
  - cbn. split; [reflexivity |]. intros other Hne.
    apply lookup_insert_ne. congruence.
Qed.

(** X4.  Clients do not disturb each other: a check for one identifier gives
    the same decision whether or not a check for another identifier came
    before it, and leaves that other client's record alone. *)
Theorem in_memory_clients_independent (wa wb : world) (a b : string)
    (La Wa Lb Wb : Z) (self : InMemoryRateLimiter.t) :
  a <> b ->
  let after_a := snd (check_rate_limit wa a La Wa self) in
  fst (check_rate_limit wb b Lb Wb after_a)
    = fst (check_rate_limit wb b Lb Wb self)
  /\ InMemoryRateLimiter.request_records after_a !! b
     = InMemoryRateLimiter.request_records self !! b
  /\ InMemoryRateLimiter.request_records
       (snd (check_rate_limit wb b Lb Wb after_a)) !! a
     = InMemoryRateLimiter.request_records after_a !! a.
Proof.
  intros Hne after_a. subst after_a.
  change (@check_rate_limit _ InMemory_RateLimiter)
    with InMemoryRateLimiter.check_rate_limit.
  destruct (in_memory_check_frame wa a La Wa self) as [_ Hframe_a].
  split; [| split].
  - apply in_memory_decision_local. apply Hframe_a. congruence.
  - apply Hframe_a. congruence.
  - destruct (in_memory_check_frame wb b Lb Wb
                (snd (InMemoryRateLimiter.check_rate_limit wa a La Wa self)))
      as [_ Hframe_b].
    apply Hframe_b. exact Hne.
Qed.

(** X5.  The request counters and the data store of one in-memory limiter do
    not touch each other, so one object can serve as a limiter and as a
    storage backend at once: [set_data] leaves the counters and the
    decisions of later checks as they were, and a check leaves what
    [get_data] returns as it was. *)
Theorem in_memory_counters_and_store_apart (w : world)
    (identifier key : string) (L W : Z) (value : pyval) (ttl : option Z)
    (self : InMemoryRateLimiter.t) :
  let stored := snd (set_data key value ttl self) in
  let checked := snd (check_rate_limit w identifier L W self) in
  InMemoryRateLimiter.request_records stored
    = InMemoryRateLimiter.request_records self
  /\ fst (check_rate_limit w identifier L W stored)
     = fst (check_rate_limit w identifier L W self)
  /\ (forall k, fst (get_data k checked) = fst (get_data k self))
  /\ snd (check_rate_limit w identifier L W stored)
     = snd (set_data key value ttl checked).
Proof.
  intros stored checked. subst stored checked.
  change (@check_rate_limit _ InMemory_RateLimiter)
    with InMemoryRateLimiter.check_rate_limit.
  destruct (in_memory_check_frame w identifier L W self) as [Hstore _].
  split; [reflexivity |]. split; [| split].
  - apply in_memory_decision_local. reflexivity.
  - intros k. cbn. unfold InMemoryRateLimiter.get_data.
    cbv zeta in Hstore. rewrite Hstore.
    destruct (InMemoryRateLimiter.data_store self !! k); reflexivity.
  - cbn. unfold InMemoryRateLimiter.check_rate_limit.
    cbn [InMemoryRateLimiter.request_records].
    destruct (InMemoryRateLimiter.request_records self !! identifier)
      as [[c ws] |]; [| reflexivity].
    destruct (Qltb _ _); [reflexivity |].
    destruct (L <=? c); reflexivity.
Qed.

(** X6.  The data store of the in-memory limiter as a map of pairs: a key
    never set reads as [None], a second [set_data] for a key replaces
    the first (value and ttl), and writing one key leaves what another
    key reads as it was. *)
Theorem in_memory_store_laws (k k' : string) (v1 v2 : pyval)
    (ttl1 ttl2 : option Z) (self : InMemoryRateLimiter.t) :
  (InMemoryRateLimiter.data_store self !! k = None ->
   get_data k self = (Ok VNone, self))
  /\ fst (get_data k (snd (set_data k v2 ttl2 (snd (set_data k v1 ttl1 self)))))
     = Ok (VPair v2 (ttl_val ttl2))
  /\ (k <> k' ->
      fst (get_data k' (snd (set_data k v1 ttl1 self)))
      = fst (get_data k' self)).
Proof.
  split; [| split].
  - intros Hnone. cbn. unfold InMemoryRateLimiter.get_data.
    rewrite Hnone. reflexivity.
  - cbn. unfold InMemoryRateLimiter.get_data. cbn.
    rewrite lookup_insert_eq. reflexivity.
  - intros Hne. cbn. unfold InMemoryRateLimiter.get_data. cbn.
    rewrite lookup_insert_ne by exact Hne.
    destruct (InMemoryRateLimiter.data_store self !! k'); reflexivity.
Qed.

(** X7.  Jitter only lengthens: when the in-memory limiter denies a request,
    the jittered wrapper around it, in the same state and with a draw
    inside its bounds, denies it too, with a retry delay that is not
    shorter. *)
Theorem jitter_keeps_denials (w : world) (identifier : string) (L W : Z)
    (self : FixedWindowRateLimiter.t InMemoryRateLimiter.t)
    (inner' : InMemoryRateLimiter.t) (retry_after : Z) :
  let J := FixedWindowRateLimiter.jitter_seconds self in
  0 <= random_randint w 0 J <= J \/ J <= 0 ->
  check_rate_limit w identifier L W (FixedWindowRateLimiter.storage self)
    = (Ok (false, retry_after), inner') ->
  exists jittered_retry,
    check_rate_limit w identifier L W self
      = (Ok (false, jittered_retry), self)
    /\ retry_after <= jittered_retry.
Proof.
  intros J Hdraw Hdeny. destruct self as [inner jitter]. cbn in J, Hdraw, Hdeny.
  subst J.
  apply in_memory_denied_inv in Hdeny
    as (c & ws & Hrec & Hin & Hc & -> & ->).
  set (j := if 0 <? jitter then random_randint w 0 jitter else 0).
  assert (0 <= j) as Hj.
  { subst j. destruct (0 <? jitter) eqn:E; [| lia].
    apply Z.ltb_lt in E. lia. }
  exists (int_of_float (ws + inject_Z (W + j) - time_time w)).
  assert (inject_Z (W + j) = (inject_Z W + inject_Z j)%Q) as Hsum
    by apply inject_Z_plus.
  assert (0 <= inject_Z j)%Q as Hjq
    by (change 0%Q with (inject_Z 0); rewrite <- Zle_Qle; exact Hj).
  split.
  - cbn. unfold FixedWindowRateLimiter.check_rate_limit, bind,
      FixedWindowRateLimiter.on_storage.
    cbn [FixedWindowRateLimiter.jitter_seconds FixedWindowRateLimiter.storage].
    replace (if 0 <? jitter then W + random_randint w 0 jitter else W)
      with (W + j) by (subst j; destruct (0 <? jitter); lia).
    change (@check_rate_limit _ InMemory_RateLimiter)
      with InMemoryRateLimiter.check_rate_limit.
    unfold InMemoryRateLimiter.check_rate_limit. rewrite Hrec.
    assert (Qltb (inject_Z (W + j)) (time_time w - ws) = false) as ->
      by (apply Qltb_false; rewrite Hsum; lra).
    assert ((L <=? c) = true) as -> by (apply Z.leb_le; exact Hc).
    reflexivity.
  - rewrite !int_of_float_floor by (rewrite ?Hsum; lra).
    apply Qfloor_resp_le. rewrite Hsum. lra.
Qed.

(** ** The redis fixed window, further *)

Lemma do_set_other (k key : string) (value : Redis.rbytes) (d : Redis.db) :
  k <> key -> Redis.do_set key value d !! k = d !! k.
Proof. intros Hne. apply lookup_insert_ne. congruence. Qed.

Lemma do_expire_other (k key : string) (W : Z) (d : Redis.db) :
  k <> key -> Redis.do_expire key W d !! k = d !! k.
Proof.
  intros Hne. unfold Redis.do_expire.
  destruct (d !! key) as [[value ttl] |]; [| reflexivity].
  destruct (0 <? W).
  - apply lookup_insert_ne. congruence.
  - apply lookup_delete_ne. congruence.
Qed.

Lemma redis_incr_other (k key : string) (d : Redis.db) :
  k <> key -> snd (redis_incr key d) !! k = d !! k.
Proof.
  intros Hne. unfold redis_incr.
  destruct (d !! key) as [[[z | q | s] ttl] |]; cbn [snd];
    try reflexivity; try (apply lookup_insert_ne; congruence).
  destruct (int_of_str s); cbn [snd];
    [apply lookup_insert_ne; congruence | reflexivity].
Qed.

Lemma redis_incr_raise (key : string) (d : Redis.db) (e : exn) :
  fst (redis_incr key d) = Raise e -> snd (redis_incr key d) = d.
Proof.
  unfold redis_incr.
  destruct (d !! key) as [[[z | q | s] ttl] |]; cbn [fst snd];
    try discriminate; try reflexivity.
  destruct (int_of_str s); cbn [fst snd]; [discriminate | reflexivity].
Qed.

(** The four commands of [start_window] always go through, keep the
    prefix and touch no key but the two they name. *)
Lemma start_window_other (key : string) (now : Q) (W : Z)
    (self : RedisRateLimiter.t) :
  fst (RedisRateLimiter.start_window key now W self) = Ok tt
  /\ RedisRateLimiter.prefix
       (snd (RedisRateLimiter.start_window key now W self))
     = RedisRateLimiter.prefix self
  /\ forall k, k <> key +:+ ":count" -> k <> key +:+ ":start" ->
       RedisRateLimiter.redis
         (snd (RedisRateLimiter.start_window key now W self)) !! k
       = RedisRateLimiter.redis self !! k.
Proof.
  split; [reflexivity |]. split; [reflexivity |].
  intros k Hc Hs. cbn [RedisRateLimiter.start_window].
  unfold RedisRateLimiter.start_window, bind, RedisRateLimiter.with_redis.
  cbn [snd RedisRateLimiter.redis RedisRateLimiter.prefix].
  rewrite !do_expire_other, !do_set_other by assumption. reflexivity.
Qed.

(** The four ways a check of the redis limiter can end. *)
Lemma redis_check_cases (w : world) (identifier : string) (L W : Z)
    (self : RedisRateLimiter.t) :
  let key := RedisRateLimiter.prefix self +:+ identifier in
  let res := RedisRateLimiter.check_rate_limit w identifier L W self in
  res = (Ok (true, 0),
         snd (RedisRateLimiter.start_window key (time_time w) W self))
  \/ (exists e, res = (Raise e, self))
  \/ (exists retry_after, res = (Ok (false, retry_after), self))
  \/ res = (match fst (redis_incr (key +:+ ":count")
                         (RedisRateLimiter.redis self)) with
            | Ok _ => Ok (true, 0)
            | Raise e => Raise e
            end,
            {| RedisRateLimiter.redis :=
                 snd (redis_incr (key +:+ ":count")
                        (RedisRateLimiter.redis self));
               RedisRateLimiter.prefix := RedisRateLimiter.prefix self |}).
Proof.
  intros key res. subst res.
  unfold RedisRateLimiter.check_rate_limit, bind, Redis.get, lift_outcome.
  fold key.
  destruct (fst <$> RedisRateLimiter.redis self !! (key +:+ ":count"))
    as [cb |]; [| left; reflexivity].
  destruct (fst <$> RedisRateLimiter.redis self !! (key +:+ ":start"))
    as [sb |]; [| left; reflexivity].
  destruct (Redis.truthy (Some cb) && Redis.truthy (Some sb));
    [| left; reflexivity].
  destruct (int_of_bytes cb) as [c | e]; [| right; left; eauto].
  destruct (float_of_bytes sb) as [ws | e]; [| right; left; eauto].
  destruct (Qltb _ _); [left; reflexivity |].
  destruct (L <=? c); [right; right; left; eauto |].
  right; right; right.
  unfold RedisRateLimiter.try_redis.
  destruct (redis_incr (key +:+ ":count") (RedisRateLimiter.redis self))
    as [[n | e] d]; reflexivity.
Qed.

(** X8.  A check of the redis limiter keeps its prefix and leaves every key
    but the count and the start of its identifier as it was; a check
    that raises or denies leaves the whole store as it was. *)
Theorem redis_check_frame (w : world) (identifier : string) (L W : Z)
    (self : RedisRateLimiter.t) :
  let key := RedisRateLimiter.prefix self +:+ identifier in
  let o := fst (check_rate_limit w identifier L W self) in
  let self' := snd (check_rate_limit w identifier L W self) in
  RedisRateLimiter.prefix self' = RedisRateLimiter.prefix self
  /\ (forall k, k <> key +:+ ":count" -> k <> key +:+ ":start" ->
        RedisRateLimiter.redis self' !! k = RedisRateLimiter.redis self !! k)
  /\ (forall e, o = Raise e -> self' = self)
  /\ (forall retry_after, o = Ok (false, retry_after) -> self' = self).
Proof.
  intros key o self'. subst o self'.
  change (@check_rate_limit _ Redis_RateLimiter)
    with RedisRateLimiter.check_rate_limit.
  destruct (start_window_other key (time_time w) W self)
    as (_ & Hprefix & Hframe).
  destruct (redis_check_cases w identifier L W self)
    as [Heq | [[e Heq] | [[r Heq] | Heq]]]; fold key in Heq;
    rewrite Heq; cbn [fst snd].
  - repeat split; try assumption; discriminate.
  - repeat split; reflexivity.
  - repeat split; reflexivity.
  - cbn [RedisRateLimiter.prefix RedisRateLimiter.redis].
    split; [reflexivity |]. split; [| split].
    + intros k Hc _. apply redis_incr_other. exact Hc.
    + intros e He.
      destruct (fst (redis_incr (key +:+ ":count")
                       (RedisRateLimiter.redis self))) as [n | e'] eqn:Hincr;
        [discriminate |].
      rewrite (redis_incr_raise _ _ e' Hincr). destruct self; reflexivity.
    + intros r Hr.
      destruct (fst (redis_incr (key +:+ ":count")
                       (RedisRateLimiter.redis self))); discriminate.
Qed.

(** One step of the two fixed-window limiters side by side. *)
Lemma redis_follows_in_memory_step (w : world) (identifier : string)
    (L W : Z) (mem : InMemoryRateLimiter.t) (red : RedisRateLimiter.t) :
  0 < W -> same_record identifier mem red ->
  fst (InMemoryRateLimiter.check_rate_limit w identifier L W mem)
  = fst (RedisRateLimiter.check_rate_limit w identifier L W red)
  /\ same_record identifier
       (snd (InMemoryRateLimiter.check_rate_limit w identifier L W mem))
       (snd (RedisRateLimiter.check_rate_limit w identifier L W red)).
Proof.
  intros HW Hsame. unfold same_record in Hsame. cbv zeta in Hsame.
  set (key := RedisRateLimiter.prefix red +:+ identifier) in *.
  destruct (start_window_lookup key (time_time w) W red HW)
    as (red1 & Hstart & Hprefix & Hcount & Hstartkey & _).
  assert (same_record identifier
            (InMemoryRateLimiter.put_record identifier (1, time_time w) mem)
            red1) as Hfresh.
  { unfold same_record. rewrite Hprefix. fold key. cbn.
    rewrite lookup_insert_eq. split; eauto. }
  unfold InMemoryRateLimiter.check_rate_limit,
    RedisRateLimiter.check_rate_limit, bind, Redis.get, lift_outcome.
  fold key.
  destruct (InMemoryRateLimiter.request_records mem !! identifier)
    as [[c ws] |] eqn:Hrec.
  - destruct Hsame as [[t1 Hc] [t2 Hs]]. rewrite Hc, Hs.
    cbn [fmap option_fmap option_map fst Redis.truthy andb
           int_of_bytes float_of_bytes].
    destruct (Qltb (inject_Z W) (time_time w - ws)).
    + rewrite Hstart. cbn [fst snd ret]. split; [reflexivity | exact Hfresh].
    + destruct (L <=? c).
      * cbn [fst snd ret]. split; [reflexivity |].
        unfold same_record. fold key. rewrite Hrec. split; eauto.
      * unfold RedisRateLimiter.try_redis, redis_incr. rewrite Hc.
        cbn [fst snd ret]. split; [reflexivity |].
        unfold same_record. cbn. fold key.
        rewrite !lookup_insert_eq. split; [eauto |].
        rewrite lookup_insert_ne by apply count_start_keys_differ. eauto.
  - rewrite Hsame. cbn [fmap option_fmap option_map].
    rewrite Hstart. cbn [fst snd ret]. split; [reflexivity | exact Hfresh].
Qed.

(** X9.  For a positive window and one client, the redis limiter makes the
    decisions of the in-memory limiter, call after call, when it starts
    from the same record (in particular when both start empty) and no
    entry is dropped by the server meanwhile. *)
Theorem redis_decides_as_in_memory (identifier : string) (L W : Z)
    (ws : list world) (mem : InMemoryRateLimiter.t)
    (red : RedisRateLimiter.t) :
  0 < W -> same_record identifier mem red ->
  fst (run_checks identifier L W ws red)
  = fst (run_checks identifier L W ws mem).
Proof.
  intros HW. revert mem red.
  induction ws as [| w ws IH]; intros mem red Hsame; [reflexivity |].
  rewrite !run_checks_cons.
  change (@check_rate_limit _ InMemory_RateLimiter)
    with InMemoryRateLimiter.check_rate_limit.
  change (@check_rate_limit _ Redis_RateLimiter)
    with RedisRateLimiter.check_rate_limit.
  destruct (redis_follows_in_memory_step w identifier L W mem red HW Hsame)
    as [Hdecision Hnext].
  rewrite Hdecision. f_equal. apply IH. exact Hnext.
Qed.

(** X10.  A record of which the count or the start is missing, or empty, is
    no record: for a positive window the check allows the request and
    starts a window with count 1 at the time of the check, whatever the
    entry that was left held. *)
Theorem redis_incomplete_record_restarts (w : world) (identifier : string)
    (L W : Z) (self : RedisRateLimiter.t) :
  let key := RedisRateLimiter.prefix self +:+ identifier in
  0 < W ->
  Redis.truthy (fst <$> RedisRateLimiter.redis self !! (key +:+ ":count"))
  && Redis.truthy (fst <$> RedisRateLimiter.redis self !! (key +:+ ":start"))
  = false ->
  exists self',
    check_rate_limit w identifier L W self = (Ok (true, 0), self')
    /\ RedisRateLimiter.redis self' !! (key +:+ ":count")
       = Some (Redis.BInt 1, Some W)
    /\ RedisRateLimiter.redis self' !! (key +:+ ":start")
       = Some (Redis.BFloat (time_time w), Some W).
Proof.
  intros key HW Hfalsy.
  destruct (start_window_lookup key (time_time w) W self HW)
    as (self1 & Hstart & _ & Hcount & Hstartkey & _).
  exists self1. split; [| auto].
  change (@check_rate_limit _ Redis_RateLimiter)
    with RedisRateLimiter.check_rate_limit.
  unfold RedisRateLimiter.check_rate_limit, bind, Redis.get, lift_outcome.
  fold key.
  destruct (fst <$> RedisRateLimiter.redis self !! (key +:+ ":count"))
    as [cb |]; [| rewrite Hstart; reflexivity].
  destruct (fst <$> RedisRateLimiter.redis self !! (key +:+ ":start"))
    as [sb |]; [| rewrite Hstart; reflexivity].
  rewrite Hfalsy. rewrite Hstart. reflexivity.
Qed.

(** X11.  [set_data] of the redis limiter, for a value the client can encode:
    without a ttl, or with a ttl of 0, the entry is stored with no
    expiry; with a positive ttl it is stored with that expiry; a negative
    ttl is refused by the server and the store stays as it was.  A value
    the client cannot encode raises and stores nothing. *)
Theorem redis_set_data_ttl (key : string) (value : pyval)
    (self : RedisRateLimiter.t) :
  let put entry :=
    {| RedisRateLimiter.redis :=
         <[key := entry]> (RedisRateLimiter.redis self);
       RedisRateLimiter.prefix := RedisRateLimiter.prefix self |} in
  (forall b, Redis.encode value = Ok b ->
     set_data key value None self = (Ok VNone, put (b, None))
     /\ set_data key value (Some 0) self = (Ok VNone, put (b, None))
     /\ (forall n, 0 < n ->
           set_data key value (Some n) self = (Ok VNone, put (b, Some n)))
     /\ (forall n, n < 0 ->
           set_data key value (Some n) self = (Raise ResponseError, self)))
  /\ (forall e ttl, Redis.encode value = Raise e ->
        set_data key value ttl self = (Raise e, self)).
Proof.
  intros put. subst put.
  change (@set_data _ Redis_RateLimiter) with RedisRateLimiter.set_data.
  unfold RedisRateLimiter.set_data, bind, lift_outcome.
  split.
  - intros b ->. split; [reflexivity |]. split; [reflexivity |]. split.
    + intros n Hn.
      assert (negb (n =? 0) = true) as ->
        by (apply negb_true_iff, Z.eqb_neq; lia).
      unfold RedisRateLimiter.try_redis, Redis.do_setex.
      assert ((0 <? n) = true) as -> by (apply Z.ltb_lt; exact Hn).
      reflexivity.
    + intros n Hn.
      assert (negb (n =? 0) = true) as ->
        by (apply negb_true_iff, Z.eqb_neq; lia).
      unfold RedisRateLimiter.try_redis, Redis.do_setex.
      assert ((0 <? n) = false) as -> by (apply Z.ltb_ge; lia).
      destruct self; reflexivity.
  - intros e ttl ->. reflexivity.
Qed.

(** ** The token bucket, further *)

Section TokenBucketFurther.
Context {S0 : Type} {backend_ops : RateLimiter S0}.

(** The path of a check that finds at least one token. *)
Lemma token_bucket_allow_step (w : world) (identifier : string)
    (requests_limit window_seconds : Z) (cap : option num)
    (s s1 s2 s3 s4 : S0) (log : list (string * pyval * option Z))
    (tokens last r1 r2 : pyval) (nt nu : num) :
  let bucket_key := "bucket:" +:+ identifier in
  let last_update_key := "last_update:" +:+ identifier in
  let C := capacity_or_limit cap requests_limit in
  let ttl := Some (window_seconds * 2) in
  let refill_rate := (inject_Z requests_limit / inject_Z window_seconds)%Q in
  let new_tokens :=
    num_min (NFloat (num_q nt + (time_time w - num_q nu) * refill_rate)) C in
  window_seconds <> 0 ->
  get_data bucket_key s = (Ok tokens, s1) ->
  get_data last_update_key s1 = (Ok last, s2) ->
  float_if_str tokens = Ok (VNum nt) ->
  float_if_str last = Ok (VNum nu) ->
  (1 <= num_q new_tokens)%Q ->
  set_data bucket_key (VNum (num_sub new_tokens (NInt 1))) ttl s2
    = (Ok r1, s3) ->
  set_data last_update_key (VFloat (time_time w)) ttl s3 = (Ok r2, s4) ->
  check_rate_limit w identifier requests_limit window_seconds
    (recorded s log cap)
  = (Ok (true, 0),
     recorded s4
       (log ++ [(bucket_key, VNum (num_sub new_tokens (NInt 1)), ttl);
                (last_update_key, VFloat (time_time w), ttl)])
       cap).
Proof.
  intros bucket_key last_update_key C ttl refill_rate new_tokens
    Hw Hg1 Hg2 Hf1 Hf2 Hhigh Hs1 Hs2.
  cbn. unfold TokenBucketRateLimiter.check_rate_limit, bind, lift_outcome.
  rewrite (int_truediv_ok requests_limit window_seconds Hw).
  fold bucket_key last_update_key refill_rate.
  rewrite get_bucket_data_recorded, Hg1. cbn [fst snd].
  rewrite get_bucket_data_recorded, Hg2. cbn [fst snd].
  assert (is_none tokens = false) as ->
    by (destruct tokens; try reflexivity; discriminate).
  assert (is_none last = false) as ->
    by (destruct last; try reflexivity; discriminate).
  cbn [orb]. rewrite Hf1, Hf2.
  cbn [float_sub_val val_add_float].
  cbn [recorded TokenBucketRateLimiter.bucket_capacity].
  fold (recorded s2 log cap). fold C ttl new_tokens.
  assert (Qleb 1 (num_q new_tokens) = true) as ->
    by (apply Qleb_true; exact Hhigh).
  rewrite set_bucket_data_recorded, Hs1. cbn [fst snd].
  rewrite set_bucket_data_recorded, Hs2. cbn [fst snd].
  rewrite <- app_assoc. reflexivity.
Qed.

(** X12.  Over a backend whose [set_data] never raises, for numbers
    read that are in range and a capacity of at least 1: when the tokens
    refilled, [tokens + elapsed * rate], reach 1 by the margin
    [float_slack], the check allows the request and writes a token
    count, then [last_update = now], both with a time-to-live of twice
    the window.  The count written is not negative, is at most the
    capacity less one, and is [min(tokens + elapsed * rate, capacity) - 1]
    up to the rounding of the float computation. *)
Theorem token_bucket_allow (w : world) (identifier : string)
    (requests_limit window_seconds : Z) (cap : option num)
    (s s1 s2 : S0) (log : list (string * pyval * option Z))
    (tokens last : pyval) (nt nu : num) :
  let bucket_key := "bucket:" +:+ identifier in
  let last_update_key := "last_update:" +:+ identifier in
  let C := capacity_or_limit cap requests_limit in
  let ttl := Some (window_seconds * 2) in
  let refill_rate := (inject_Z requests_limit / inject_Z window_seconds)%Q in
  let total := (num_q nt + (time_time w - num_q nu) * refill_rate)%Q in
  let new_tokens := num_min (NFloat total) C in
  let tolerance := (float_slack * (1 + num_q new_tokens))%Q in
  bucket_in_range requests_limit window_seconds C nt nu (time_time w)
    = true ->
  (forall key value ttl' (st : S0),
      exists r st', set_data key value ttl' st = (Ok r, st')) ->
  get_data bucket_key s = (Ok tokens, s1) ->
  get_data last_update_key s1 = (Ok last, s2) ->
  float_if_str tokens = Ok (VNum nt) ->
  float_if_str last = Ok (VNum nu) ->
  (1 <= num_q C)%Q ->
  (1 + float_slack * total <= total)%Q ->
  exists (written : num) (r1 r2 : pyval) (s3 s4 : S0),
    set_data bucket_key (VNum written) ttl s2 = (Ok r1, s3)
    /\ set_data last_update_key (VFloat (time_time w)) ttl s3 = (Ok r2, s4)
    /\ check_rate_limit w identifier requests_limit window_seconds
         (recorded s log cap)
       = (Ok (true, 0),
          recorded s4
            (log ++ [(bucket_key, VNum written, ttl);
                     (last_update_key, VFloat (time_time w), ttl)])
            cap)
    /\ (0 <= num_q written)%Q
    /\ (num_q written <= num_q C - 1)%Q
    /\ (num_q new_tokens - 1 - tolerance <= num_q written)%Q
    /\ (num_q written <= num_q new_tokens - 1 + tolerance)%Q.
Proof.
  intros bucket_key last_update_key C ttl refill_rate total new_tokens
    tolerance Hrange Htotal Hg1 Hg2 Hf1 Hf2 HC Hmargin.
  apply bucket_in_range_spec in Hrange as (Hl & Hw & _).
  assert (1 <= total)%Q as Hone
    by (unfold float_slack in Hmargin; lra).
  assert (1 <= num_q new_tokens)%Q as Hhigh.
  { subst new_tokens. unfold num_min.
    destruct (Qltb _ _); cbn [num_q]; lra. }
  assert (0 <= tolerance)%Q as Htol
    by (subst tolerance; unfold float_slack; lra).
  set (written := num_sub new_tokens (NInt 1)).
  assert (num_q written == num_q new_tokens - 1)%Q as Hwritten
    by (subst written; rewrite num_q_sub; reflexivity).
  pose proof (num_min_le_r (NFloat total) C) as Hcap.
  fold new_tokens in Hcap.
  destruct (Htotal bucket_key (VNum written) ttl s2) as (r1 & s3 & Hs1).
  destruct (Htotal last_update_key (VFloat (time_time w)) ttl s3)
    as (r2 & s4 & Hs2).
  exists written, r1, r2, s3, s4.
  split; [exact Hs1 |]. split; [exact Hs2 |].
  split.
  - exact (token_bucket_allow_step w identifier requests_limit
             window_seconds cap s s1 s2 s3 s4 log tokens last r1 r2 nt nu
             ltac:(lia) Hg1 Hg2 Hf1 Hf2 Hhigh Hs1 Hs2).
  - clearbody tolerance. repeat split; rewrite Hwritten; lra.
Qed.

(** X13.  Waiting a little over one refill interval is enough: over a
    backend whose [set_data] never raises, for numbers read that are in
    range and a capacity of at least 1, a check that comes
    [window / limit] seconds, and the margin [float_slack] of them more,
    after the last update is allowed. *)
Theorem token_bucket_refill_interval_suffices (w : world)
    (identifier : string) (requests_limit window_seconds : Z)
    (cap : option num) (s s1 s2 : S0)
    (log : list (string * pyval * option Z))
    (tokens last : pyval) (nt nu : num) :
  let bucket_key := "bucket:" +:+ identifier in
  let last_update_key := "last_update:" +:+ identifier in
  let C := capacity_or_limit cap requests_limit in
  bucket_in_range requests_limit window_seconds C nt nu (time_time w)
    = true ->
  (forall key value ttl (st : S0),
      exists r st', set_data key value ttl st = (Ok r, st')) ->
  (1 <= num_q C)%Q ->
  ((1 + float_slack) * inject_Z window_seconds
   <= (time_time w - num_q nu) * inject_Z requests_limit)%Q ->
  get_data bucket_key s = (Ok tokens, s1) ->
  get_data last_update_key s1 = (Ok last, s2) ->
  float_if_str tokens = Ok (VNum nt) ->
  float_if_str last = Ok (VNum nu) ->
  fst (check_rate_limit w identifier requests_limit window_seconds
         (recorded s log cap))
  = Ok (true, 0).
Proof.
  intros bucket_key last_update_key C Hrange Htotal HC Hwait
    Hg1 Hg2 Hf1 Hf2.
  apply bucket_in_range_spec in Hrange as (Hl & Hw & _ & Hnt & _).
  set (refill_rate := (inject_Z requests_limit / inject_Z window_seconds)%Q).
  set (new_tokens :=
         num_min
           (NFloat (num_q nt + (time_time w - num_q nu) * refill_rate)) C).
  assert (0 < inject_Z window_seconds)%Q as Hwq
    by (change 0%Q with (inject_Z 0); rewrite <- Zlt_Qlt; exact Hw).
  assert (1 <= (time_time w - num_q nu) * refill_rate)%Q as Hrefill.
  { subst refill_rate.
    assert ((time_time w - num_q nu)
            * (inject_Z requests_limit / inject_Z window_seconds)
            == (time_time w - num_q nu) * inject_Z requests_limit
               / inject_Z window_seconds)%Q as ->
      by (field; lra).
    apply Qle_shift_div_l; [exact Hwq |].
    unfold float_slack in Hwait. lra. }
  assert (1 <= num_q new_tokens)%Q as Hhigh.
  { subst new_tokens. unfold num_min.
    destruct (Qltb _ _); cbn [num_q]; lra. }
  destruct (Htotal bucket_key (VNum (num_sub new_tokens (NInt 1)))
              (Some (window_seconds * 2)) s2) as (r1 & s3 & Hs1).
  destruct (Htotal last_update_key (VFloat (time_time w))
              (Some (window_seconds * 2)) s3) as (r2 & s4 & Hs2).
  rewrite (token_bucket_allow_step w identifier requests_limit
             window_seconds cap s s1 s2 s3 s4 log tokens last r1 r2 nt nu
             ltac:(lia) Hg1 Hg2 Hf1 Hf2 Hhigh Hs1 Hs2).
  reflexivity.
Qed.

Lemma bucket_write_of_bucket (identifier : string) (W : Z) (v : pyval) :
  bucket_write_of identifier W
    ("bucket:" +:+ identifier, v, Some (W * 2)) = true.
Proof.
  unfold bucket_write_of. rewrite String.eqb_refl, Z.eqb_refl. reflexivity.
Qed.

Lemma bucket_write_of_last_update (identifier : string) (W : Z) (v : pyval) :
  bucket_write_of identifier W
    ("last_update:" +:+ identifier, v, Some (W * 2)) = true.
Proof.
  unfold bucket_write_of. rewrite (String.eqb_refl ("last_update:" +:+ _)).
  rewrite Z.eqb_refl, orb_true_r. reflexivity.
Qed.

Ltac ends_without_write :=
  cbv beta iota; cbn [snd]; eexists _, [];
  split; [rewrite app_nil_r; reflexivity | split; [cbn; lia | reflexivity]].

Ltac ends_with_writes :=
  cbv beta iota; cbn [snd]; rewrite <- ?app_assoc; eexists _, _;
  split; [reflexivity |];
  split; [cbn; lia |];
  cbn [app forallb];
  rewrite ?bucket_write_of_bucket, ?bucket_write_of_last_update;
  reflexivity.

(** X14.  Whatever the backend answers, one check calls [set_data] at most
    twice, only for the two keys of its identifier, and always with a
    time-to-live of twice the window: it writes no other key, and no
    entry without expiry. *)
Theorem token_bucket_writes_own_keys (w : world) (identifier : string)
    (requests_limit window_seconds : Z) (s : S0)
    (log : list (string * pyval * option Z)) (cap : option num) :
  exists (s' : S0) extra,
    snd (check_rate_limit w identifier requests_limit window_seconds
           (recorded s log cap))
    = recorded s' (log ++ extra) cap
    /\ (length extra <= 2)%nat
    /\ forallb (bucket_write_of identifier window_seconds) extra = true.
Proof.
  cbn. unfold TokenBucketRateLimiter.check_rate_limit, bind, lift_outcome.
  destruct (int_truediv requests_limit window_seconds) as [rate | e];
    [| ends_without_write].
  rewrite get_bucket_data_recorded.
  destruct (get_data ("bucket:" +:+ identifier) s) as [[tokens | e] s1];
    cbn [fst snd]; [| ends_without_write].
  rewrite get_bucket_data_recorded.
  destruct (get_data ("last_update:" +:+ identifier) s1)
    as [[last | e] s2]; cbn [fst snd]; [| ends_without_write].
  cbn [recorded TokenBucketRateLimiter.bucket_capacity].
  fold (recorded s2 log cap).
  destruct (is_none tokens || is_none last).
  - rewrite set_bucket_data_recorded.
    destruct (set_data _ _ _ s2) as [[r1 | e] s3]; cbn [fst snd];
      [| ends_with_writes].
    rewrite set_bucket_data_recorded.
    destruct (set_data _ _ _ s3) as [[r2 | e] s4]; cbn [fst snd];
      ends_with_writes.
  - destruct (float_if_str tokens) as [tokens' | e]; [| ends_without_write].
    destruct (float_if_str last) as [last' | e]; [| ends_without_write].
    destruct (float_sub_val (time_time w) last') as [elapsed | e];
      [| ends_without_write].
    destruct (val_add_float tokens' (elapsed * rate)) as [total | e];
      [| ends_without_write].
    destruct (Qleb 1 _).
    + rewrite set_bucket_data_recorded.
      destruct (set_data _ _ _ s2) as [[r1 | e] s3]; cbn [fst snd];
        [| ends_with_writes].
      rewrite set_bucket_data_recorded.
      destruct (set_data _ _ _ s3) as [[r2 | e] s4]; cbn [fst snd];
        ends_with_writes.
    + destruct (float_div _ rate) as [wait | e]; [| ends_without_write].
      rewrite set_bucket_data_recorded.
      destruct (set_data _ _ _ s2) as [[r1 | e] s3]; cbn [fst snd];
        ends_with_writes.
Qed.

(** X15.  A limiter that inherits [get_data] and [set_data] from the base
    class stores nothing.  A token bucket whose backend is a
    [FixedWindowRateLimiter] or another [TokenBucketRateLimiter]
    therefore finds no record at any check: for a window other than 0 it
    allows every request and its state never moves. *)
Theorem token_bucket_over_storeless_backend (w : world)
    (identifier : string) (requests_limit window_seconds : Z)
    (over_window : TokenBucketRateLimiter.t (FixedWindowRateLimiter.t S0))
    (over_bucket : TokenBucketRateLimiter.t (TokenBucketRateLimiter.t S0)) :
  window_seconds <> 0 ->
  check_rate_limit w identifier requests_limit window_seconds over_window
    = (Ok (true, 0), over_window)
  /\ check_rate_limit w identifier requests_limit window_seconds over_bucket
     = (Ok (true, 0), over_bucket).
Proof.
  intros Hw.
  destruct over_window as [[inner jitter] cap1].
  destruct over_bucket as [[inner2 cap_inner] cap2].
  split; cbn;
    unfold TokenBucketRateLimiter.check_rate_limit, bind, lift_outcome;
    rewrite (int_truediv_ok requests_limit window_seconds Hw);
    reflexivity.
Qed.

(** X16.  Values the arithmetic cannot use.  When both reads give something
    other than [None]: text that [float] rejects raises the error of
    [float], for the token entry first and then for [last_update]; a
    value that is neither text nor a number raises [TypeError], for
    [last_update] first and then for the token entry.  In every such case
    the check ends without a single [set_data] call. *)
Theorem token_bucket_unusable_values (w : world) (identifier : string)
    (requests_limit window_seconds : Z) (cap : option num)
    (s s1 s2 : S0) (log : list (string * pyval * option Z))
    (tokens last : pyval) :
  let bucket_key := "bucket:" +:+ identifier in
  let last_update_key := "last_update:" +:+ identifier in
  let call :=
    check_rate_limit w identifier requests_limit window_seconds
      (recorded s log cap) in
  window_seconds <> 0 ->
  get_data bucket_key s = (Ok tokens, s1) ->
  get_data last_update_key s1 = (Ok last, s2) ->
  is_none tokens = false -> is_none last = false ->
  (forall e, float_if_str tokens = Raise e ->
     call = (Raise e, recorded s2 log cap))
  /\ (forall v e, float_if_str tokens = Ok v ->
        float_if_str last = Raise e ->
        call = (Raise e, recorded s2 log cap))
  /\ (forall v u, float_if_str tokens = Ok v -> float_if_str last = Ok u ->
        (forall n, u <> VNum n) ->
        call = (Raise TypeError, recorded s2 log cap))
  /\ (forall v n, float_if_str tokens = Ok v ->
        float_if_str last = Ok (VNum n) ->
        (forall m, v <> VNum m) ->
        call = (Raise TypeError, recorded s2 log cap)).
Proof.
  intros bucket_key last_update_key call Hw Hg1 Hg2 Hn1 Hn2. subst call.
  cbn. unfold TokenBucketRateLimiter.check_rate_limit, bind, lift_outcome.
  rewrite (int_truediv_ok requests_limit window_seconds Hw).
  fold bucket_key last_update_key.
  rewrite get_bucket_data_recorded, Hg1. cbn [fst snd].
  rewrite get_bucket_data_recorded, Hg2. cbn [fst snd].
  rewrite Hn1, Hn2. cbn [orb].
  split; [| split; [| split]].
  - intros e ->. reflexivity.
  - intros v e -> ->. reflexivity.
  - intros v u -> -> Hu.
    destruct u as [| n | text | a b]; try reflexivity.
    contradiction (Hu n eq_refl).
  - intros v n -> -> Hv. cbn [float_sub_val].
    destruct v as [| m | text | a b]; try reflexivity.
    contradiction (Hv m eq_refl).
Qed.

End TokenBucketFurther.

(** ** The token bucket over a backend that keeps its contract *)

Section LawfulBackend.
Context {S0 : Type} {backend_ops : RateLimiter S0}.
Variable read : S0 -> string -> pyval.
Hypothesis get_reads :
  forall key s, get_data key s = (Ok (read s key), s).
Hypothesis set_writes :
  forall key value ttl s,
    exists r s',
      set_data key value ttl s = (Ok r, s')
      /\ read s' key = value
      /\ forall other, other <> key -> read s' other = read s other.

(** A poll that comes too soon is denied and moves [last_update] to its
    own time, leaving the stored tokens as they were. *)
Lemma token_bucket_poll_too_soon (identifier : string) (L W : Z)
    (nt nu : num) (now : Q) (self : TokenBucketRateLimiter.t S0) :
  0 < L -> 0 < W ->
  read (TokenBucketRateLimiter.storage self) ("bucket:" +:+ identifier)
    = VNum nt ->
  read (TokenBucketRateLimiter.storage self) ("last_update:" +:+ identifier)
    = VNum nu ->
  (num_q nt + (now - num_q nu) * (inject_Z L / inject_Z W) < 1)%Q ->
  exists retry_after self',
    check_rate_limit (at_time now) identifier L W self
      = (Ok (false, retry_after), self')
    /\ 1 <= retry_after
    /\ read (TokenBucketRateLimiter.storage self') ("bucket:" +:+ identifier)
       = VNum nt
    /\ read (TokenBucketRateLimiter.storage self')
         ("last_update:" +:+ identifier)
       = VNum (NFloat now).
Proof.
  intros HL HW Htok Hlast Hsoon. destruct self as [s cap].
  cbn [TokenBucketRateLimiter.storage] in *.
  pose proof (refill_rate_positive L W HL HW) as Hrate.
  destruct (set_writes ("last_update:" +:+ identifier) (VFloat now)
              (Some (W * 2)) s) as (r & s' & Hset & Hread & Hother).
  set (C := capacity_or_limit cap L).
  set (total := (num_q nt + (now - num_q nu) * (inject_Z L / inject_Z W))%Q)
    in *.
  assert (num_q (num_min (NFloat total) C) < 1)%Q as Hlow.
  { unfold num_min. destruct (Qltb (num_q C) (num_q (NFloat total))) eqn:E;
      [apply Qltb_true in E; cbn [num_q] in *; lra | exact Hsoon]. }
  eexists _, _. split; [| split; [| split]].
  - cbn. unfold TokenBucketRateLimiter.check_rate_limit, bind, lift_outcome.
    rewrite (int_truediv_ok L W) by lia.
    unfold TokenBucketRateLimiter._get_bucket_data,
      TokenBucketRateLimiter.on_storage.
    cbn [TokenBucketRateLimiter.storage TokenBucketRateLimiter.bucket_capacity].
    rewrite get_reads. cbv beta iota.
    cbn [TokenBucketRateLimiter.storage TokenBucketRateLimiter.bucket_capacity].
    rewrite get_reads. cbv beta iota.
    rewrite Htok, Hlast.
    cbn [is_none orb float_if_str float_sub_val val_add_float
           time_time at_time
           TokenBucketRateLimiter.storage
           TokenBucketRateLimiter.bucket_capacity].
    fold total C.
    assert (Qleb 1 (num_q (num_min (NFloat total) C)) = false) as ->
      by (apply Qleb_false; exact Hlow).
    rewrite (float_div_ok _ _ Hrate).
    unfold TokenBucketRateLimiter._set_bucket_data,
      TokenBucketRateLimiter.on_storage, bind.
    cbn [TokenBucketRateLimiter.storage TokenBucketRateLimiter.bucket_capacity].
    rewrite Hset. reflexivity.
  - lia.
  - cbn [TokenBucketRateLimiter.storage]. rewrite Hother; [exact Htok |].
    apply bucket_last_update_keys_differ.
  - cbn [TokenBucketRateLimiter.storage]. exact Hread.
Qed.


End LawfulBackend.

(** ** The decorator, further *)

Section DecoratorFurther.
Context {S : Type} {limiter : RateLimiter S} {R : Type}.

(** With a request among the arguments and an identifier for it, the
    decorated function answers as the decision of the limiter says. *)
Lemma rate_limit_as_check (requests_limit window_seconds : Z)
    (identifier_func : option (Request -> outcome string))
    (func : list pyarg -> list (string * pyarg) -> outcome R)
    (w : world) (args : list pyarg) (kwargs : list (string * pyarg))
    (request : Request) (identifier : string) (self : S) :
  find_request (args ++ map snd kwargs) = Some request ->
  default default_identifier identifier_func request = Ok identifier ->
  rate_limit requests_limit window_seconds identifier_func func
    w args kwargs self
  = (response_of (func args kwargs)
       (fst (check_rate_limit w identifier requests_limit window_seconds
               self)),
     snd (check_rate_limit w identifier requests_limit window_seconds self)).
Proof.
  intros Hreq Hid. unfold rate_limit, wrapper. cbv zeta.
  rewrite find_request_app in Hreq. rewrite Hreq.
  unfold bind, lift_outcome. rewrite Hid.
  destruct (check_rate_limit w identifier requests_limit window_seconds self)
    as [[[[|] retry_after] | e] self']; reflexivity.
Qed.

Lemma run_requests_as_run_checks (requests_limit window_seconds : Z)
    (identifier_func : option (Request -> outcome string))
    (func : list pyarg -> list (string * pyarg) -> outcome R)
    (args : list pyarg) (kwargs : list (string * pyarg))
    (request : Request) (identifier : string) (ws : list world) :
  find_request (args ++ map snd kwargs) = Some request ->
  default default_identifier identifier_func request = Ok identifier ->
  forall self : S,
    fst (run_requests
           (rate_limit requests_limit window_seconds identifier_func func)
           args kwargs ws self)
    = map (response_of (func args kwargs))
        (fst (run_checks identifier requests_limit window_seconds ws self)).
Proof.
  intros Hreq Hid. induction ws as [| w ws IH]; intros self; [reflexivity |].
  rewrite run_checks_cons. cbn [run_requests map].
  rewrite (rate_limit_as_check _ _ _ _ w _ _ request identifier self Hreq Hid).
  specialize (IH (snd (check_rate_limit w identifier requests_limit
                         window_seconds self))).
  destruct (run_requests _ args kwargs ws _) as [os s'].
  cbn [fst] in *. rewrite IH. reflexivity.
Qed.

(** X18.  Errors on the way pass through the decorator unchanged: an
    [identifier_func] that raises is raised before the limiter is
    consulted; an exception of the limiter is raised in place of any
    answer; with the default identifier, a request without a client
    address raises [AttributeError] and the limiter is not consulted. *)
Theorem rate_limit_errors_pass_through (requests_limit window_seconds : Z)
    (identifier_func : option (Request -> outcome string))
    (func : list pyarg -> list (string * pyarg) -> outcome R)
    (w : world) (args : list pyarg) (kwargs : list (string * pyarg))
    (request : Request) (self : S) :
  find_request (args ++ map snd kwargs) = Some request ->
  let call :=
    rate_limit requests_limit window_seconds identifier_func func
      w args kwargs self in
  (forall e, default default_identifier identifier_func request = Raise e ->
     call = (Raise e, self))
  /\ (forall identifier e self',
        default default_identifier identifier_func request = Ok identifier ->
        check_rate_limit w identifier requests_limit window_seconds self
          = (Raise e, self') ->
        call = (Raise e, self'))
  /\ (identifier_func = None -> client_host request = None ->
      call = (Raise AttributeError, self)).
Proof.
  intros Hreq call. subst call.
  assert (forall e,
             default default_identifier identifier_func request = Raise e ->
             rate_limit requests_limit window_seconds identifier_func func
               w args kwargs self = (Raise e, self)) as Hid_raises.
  { intros e He. unfold rate_limit, wrapper. cbv zeta.
    rewrite find_request_app in Hreq. rewrite Hreq.
    unfold bind, lift_outcome. rewrite He. reflexivity. }
  split; [exact Hid_raises |]. split.
  - intros identifier e self' Hid Hcheck.
    rewrite (rate_limit_as_check _ _ _ _ w _ _ request identifier self
               Hreq Hid).
    rewrite Hcheck. reflexivity.
  - intros -> Hclient. apply Hid_raises. cbn. unfold default_identifier.
    rewrite Hclient. reflexivity.
Qed.

End DecoratorFurther.

(** X19.  The decorator over the in-memory limiter, end to end: with a limit
    of at least 1, a client's first request and [L - 1] more inside the
    window get the answer of the decorated function; the next request
    inside the window gets [HTTPException] 429 whose [Retry-After] is
    the text of a delay between 0 and the window. *)
Theorem rate_limit_in_memory_end_to_end {R : Type} (L W : Z)
    (identifier_func : option (Request -> outcome string))
    (func : list pyarg -> list (string * pyarg) -> outcome R)
    (args : list pyarg) (kwargs : list (string * pyarg))
    (request : Request) (identifier : string)
    (t0 tlast : Q) (ts : list Q) (self : InMemoryRateLimiter.t) :
  find_request (args ++ map snd kwargs) = Some request ->
  default default_identifier identifier_func request = Ok identifier ->
  InMemoryRateLimiter.request_records self !! identifier = None ->
  1 <= L -> Z.of_nat (length ts) = L - 1 ->
  Forall (fun t => (t - t0 <= inject_Z W)%Q) ts ->
  (t0 <= tlast)%Q -> (tlast - t0 <= inject_Z W)%Q ->
  exists retry_after,
    fst (run_requests (rate_limit L W identifier_func func) args kwargs
           (map at_time (t0 :: ts ++ [tlast])) self)
    = repeat (func args kwargs) (Z.to_nat L)
        ++ [Raise (HTTPException 429
                     ("Rate limit exceeded. Try again in "
                        +:+ pretty retry_after +:+ " seconds.")
                     [("Retry-After", pretty retry_after)])]
    /\ 0 <= retry_after <= W.
Proof.
  intros Hreq Hid Hnone HL Hlen Hin Hle Hlast.
  destruct (in_memory_admission identifier L W t0 tlast ts self
              Hnone HL Hlen Hin Hle Hlast)
    as (r & Hrun & Hr & _).
  exists r. split; [| exact Hr].
  rewrite (run_requests_as_run_checks L W identifier_func func args kwargs
             request identifier _ Hreq Hid self).
  rewrite Hrun, map_app, List.map_repeat. reflexivity.
Qed.

(** X20.  The decorator over the default token bucket: once the bucket has
    returned a decision for a client, every later request of that client
    through the decorator raises [TypeError] (for a window other than
    0): it is neither served nor answered with 429. *)
Theorem rate_limit_token_bucket_in_memory {R : Type}
    (L1 W1 L2 W2 : Z)
    (identifier_func : option (Request -> outcome string))
    (func : list pyarg -> list (string * pyarg) -> outcome R)
    (w1 w2 : world) (args : list pyarg) (kwargs : list (string * pyarg))
    (request : Request) (identifier : string) (decision : bool * Z)
    (self self1 : TokenBucketRateLimiter.t InMemoryRateLimiter.t) :
  find_request (args ++ map snd kwargs) = Some request ->
  default default_identifier identifier_func request = Ok identifier ->
  W2 <> 0 ->
  check_rate_limit w1 identifier L1 W1 self = (Ok decision, self1) ->
  rate_limit L2 W2 identifier_func func w2 args kwargs self1
  = (Raise TypeError, self1).
Proof.
  intros Hreq Hid HW2 Hfirst. destruct self as [st cap].
  apply (check_leaves_pairs w1 identifier L1 W1 st cap) in Hfirst
    as (st1 & tokens & a & b & -> & Hlast & Htok & Hnone & [v Hfloat] & _).
  rewrite (rate_limit_as_check L2 W2 identifier_func func w2 args kwargs
             request identifier _ Hreq Hid).
  rewrite (check_on_pair_raises w2 identifier L2 W2 st1 cap tokens a b v
             Hlast Htok Hnone Hfloat).
  assert ((W2 =? 0) = false) as -> by (apply Z.eqb_neq; exact HW2).
  reflexivity.
Qed.

(** The storage double keeps the contract asked of a backend. *)
Lemma value_store_reads (key : string) (s : InMemoryRateLimiter.t) :
  @get_data _ ValueStore.ops key s = (Ok (ValueStore.read s key), s).
Proof.
  cbn. unfold InMemoryRateLimiter.get_data, ValueStore.read.
  destruct (InMemoryRateLimiter.data_store s !! key); reflexivity.
Qed.

Lemma value_store_writes (key : string) (value : pyval) (ttl : option Z)
    (s : InMemoryRateLimiter.t) :
  exists r s',
    @set_data _ ValueStore.ops key value ttl s = (Ok r, s')
    /\ ValueStore.read s' key = value
    /\ forall other, other <> key ->
         ValueStore.read s' other = ValueStore.read s other.
Proof.
  eexists _, _. split; [reflexivity |]. unfold ValueStore.read. cbn. split.
  - rewrite lookup_insert_eq. reflexivity.
  - intros other Hne. rewrite lookup_insert_ne by congruence. reflexivity.
Qed.

End FurtherProperties.

(** * Closed instances *)

#[local] Existing Instance no_text_builtins.


(** First call for client ["A"], limit 5 per 60 seconds, on an empty
    in-memory backend: allowed, token value 4 and [last_update] 1000
    written with a time-to-live of 120. *)
Lemma token_bucket_first_check_witness :
  check_rate_limit (at_time 1000) "A" 5 60
    (recorded InMemoryRateLimiter.init [] None)
  = (Ok (true, 0),
     recorded
       (snd (set_data "last_update:A" (VFloat 1000) (Some 120)
               (snd (set_data "bucket:A" (VInt 4) (Some 120)
                       InMemoryRateLimiter.init))))
       [("bucket:A", VInt 4, Some 120);
        ("last_update:A", VFloat 1000, Some 120)] None)
  /\ num_eqb (NInt 4) (NFloat (4 # 1)) = true.
Proof.
  destruct (token_bucket_first_check (at_time 1000) "A" 5 60 None
              InMemoryRateLimiter.init InMemoryRateLimiter.init
              InMemoryRateLimiter.init
              (snd (set_data "bucket:A" (VInt 4) (Some 120)
                      InMemoryRateLimiter.init))
              (snd (set_data "last_update:A" (VFloat 1000) (Some 120)
                      (snd (set_data "bucket:A" (VInt 4) (Some 120)
                              InMemoryRateLimiter.init))))
              [] VNone VNone VNone VNone)
    as (Hcheck & _ & Hfour);
    [lia | reflexivity | reflexivity | left; reflexivity | reflexivity
    | reflexivity |].
  split; [exact Hcheck |].
  destruct (Hfour eq_refl eq_refl) as [_ Heq]. exact Heq.
Defined.

(** A record [(5, 939)] checked at 1000 with a window of 60: allowed,
    and the record becomes [(1, 1000)], in memory and in redis. *)
Lemma window_reset_witness :
  (exists self',
      check_rate_limit (at_time 1000) "A" 5 60 (seeded_records 5 939)
        = (Ok (true, 0), self')
      /\ InMemoryRateLimiter.request_records self' !! "A" = Some (1, 1000%Q))
  /\ (exists self',
        check_rate_limit (at_time 1000) "A" 5 60 (seeded_redis 5 939)
          = (Ok (true, 0), self')
        /\ RedisRateLimiter.redis self' !! "ratelimit:A:count"
           = Some (Redis.BInt 1, Some 60)
        /\ RedisRateLimiter.redis self' !! "ratelimit:A:start"
           = Some (Redis.BFloat 1000, Some 60)).
Proof.
  destruct (window_reset (at_time 1000) "A" 5 60 5 939) as [Hmem Hredis];
    [reflexivity |].
  split.
  - destruct (Hmem (seeded_records 5 939)) as (self' & Hcheck & Hrec & _);
      [reflexivity |].
    exists self'. split; assumption.
  - destruct (Hredis (seeded_redis 5 939) (Redis.BInt 5) (Redis.BFloat 939)
                None None)
      as (self' & Hcheck & Hcount & Hstart & _);
      [reflexivity | reflexivity | reflexivity | reflexivity | reflexivity
      | reflexivity | lia |].
    exists self'. repeat split; assumption.
Defined.

(** Jitter 5, configured window 60, draw 3: the wrapped limiter is
    called with a window of 63. *)
Lemma jittered_window_delegates_witness :
  check_rate_limit draw_three "A" 5 60
    (FixedWindowRateLimiter.init InMemoryRateLimiter.init (Some 5))
  = (fst (check_rate_limit draw_three "A" 5 63 InMemoryRateLimiter.init),
     {| FixedWindowRateLimiter.storage :=
          snd (check_rate_limit draw_three "A" 5 63 InMemoryRateLimiter.init);
        FixedWindowRateLimiter.jitter_seconds := 5 |}).
Proof.
  destruct (jittered_window_delegates
              (FixedWindowRateLimiter.init InMemoryRateLimiter.init (Some 5))
              draw_three "A" 5 60)
    as (window & Hcheck & Hpos & _); [left; cbn; lia |].
  destruct (Hpos ltac:(cbn; lia)) as [Hwindow _].
  cbn in Hwindow. subst window. exact Hcheck.
Defined.

(** Tokens 2.5 and a last update 30 seconds ago, then two calls: the
    token values written are within the capacity 5. *)
Lemma token_writes_within_capacity_witness :
  forallb (token_write_ok (NInt 5))
    (Recording.set_calls
       (TokenBucketRateLimiter.storage
          (snd (run_calls
                  [(at_time 1000, "A", 5, 60); (at_time 1001, "A", 5, 60)]
                  (TokenBucketRateLimiter.init
                     (Recording.init
                        (seeded_store (VFloat (5 # 2)) (VFloat 970)))
                     None)))))
  = true.
Proof.
  apply (token_writes_within_capacity
           (seeded_store (VFloat (5 # 2)) (VFloat 970)) None (NInt 5)).
  - vm_compute. discriminate.
  - repeat constructor.
Defined.

(** The three outcomes of the decorator with a limit of 1 per 60
    seconds: no request among the arguments; a request while the record
    of its client is at the limit; a request from a client not seen. *)
Lemma rate_limit_outcomes_witness :
  (exists msg,
      rate_limit 1 60 None test_endpoint (at_time 1000)
        [AOther (VStr "no request here")] [] InMemoryRateLimiter.init
      = (Raise (ValueError msg), InMemoryRateLimiter.init))
  /\ fst (rate_limit 1 60 (Some (fun _ => Ok "A")) test_endpoint
            (at_time 1000) [ARequest test_request] [] (seeded_records 1 970))
     = Raise (HTTPException 429
                "Rate limit exceeded. Try again in 30 seconds."
                [("Retry-After", "30")])
  /\ fst (rate_limit 1 60 None test_endpoint (at_time 1000)
            [AOther (VStr "x")] [("request", ARequest test_request)]
            InMemoryRateLimiter.init)
     = Ok "success".
Proof.
  split; [| split].
  - destruct (rate_limit_outcomes 1 60 None test_endpoint (at_time 1000)
                [AOther (VStr "no request here")] [] InMemoryRateLimiter.init)
      as (Husage & _ & _).
    destruct (Husage eq_refl) as (msg & Hcall & _).
    exists msg. exact Hcall.
  - destruct (rate_limit_outcomes 1 60 (Some (fun _ => Ok "A")) test_endpoint
                (at_time 1000) [ARequest test_request] []
                (seeded_records 1 970))
      as (_ & Hdeny & _).
    rewrite (Hdeny test_request "A" 30 (seeded_records 1 970));
      reflexivity.
  - destruct (rate_limit_outcomes 1 60 None test_endpoint (at_time 1000)
                [AOther (VStr "x")] [("request", ARequest test_request)]
                InMemoryRateLimiter.init)
      as (_ & _ & Hallow).
    rewrite (Hallow test_request "127.0.0.1/test" 0
               (snd (check_rate_limit (at_time 1000) "127.0.0.1/test" 1 60
                       InMemoryRateLimiter.init)));
      reflexivity.
Defined.

(** The default token bucket: a first call at 1000 is allowed, a second
    one at 1001 raises [TypeError]. *)
Lemma token_bucket_in_memory_second_check_witness :
  fst (check_rate_limit (at_time 1001) "A" 5 60
         (snd (check_rate_limit (at_time 1000) "A" 5 60
                 (TokenBucketRateLimiter.init_default None))))
  = Raise TypeError.
Proof.
  destruct (token_bucket_in_memory_second_check
              (TokenBucketRateLimiter.init_default None)
              (snd (check_rate_limit (at_time 1000) "A" 5 60
                      (TokenBucketRateLimiter.init_default None)))
              (at_time 1000) (at_time 1001) "A" 5 60 5 60 (true, 0))
    as (Hsecond & _); [reflexivity |].
  rewrite Hsecond. reflexivity.
Defined.

(** A token bucket over an empty redis store, limit 5 per 60 seconds:
    three calls within two seconds are all allowed, and a call at 1000
    leaves the token entry at 4 and [last_update] at 1000, each with a
    time-to-live of 120. *)
Lemma token_bucket_over_redis_always_allows_witness :
  fst (run_checks "A" 5 60 [at_time 1000; at_time 1001; at_time 1002]
         (TokenBucketRateLimiter.init (RedisRateLimiter.init ∅ None) None))
  = [Ok (true, 0); Ok (true, 0); Ok (true, 0)]
  /\ check_rate_limit (at_time 1000) "A" 5 60
       (TokenBucketRateLimiter.init (RedisRateLimiter.init ∅ None) None)
     = (Ok (true, 0),
        TokenBucketRateLimiter.init
          {| RedisRateLimiter.redis :=
               <["last_update:A" := (Redis.BFloat 1000, Some 120)]>
                 (<["bucket:A" := (Redis.BInt 4, Some 120)]> ∅);
             RedisRateLimiter.prefix := "ratelimit:" |}
          None).
Proof.
  destruct (token_bucket_over_redis_always_allows "A" 5 60
              [at_time 1000; at_time 1001; at_time 1002]
              (TokenBucketRateLimiter.init (RedisRateLimiter.init ∅ None)
                 None))
    as (_ & _ & _ & Hallowed & Hstate & _).
  split; [exact (Hallowed ltac:(lia)) |].
  destruct (Hstate ltac:(lia) (at_time 1000) (RedisRateLimiter.init ∅ None)
              None)
    as (b & Hb & Hcheck).
  injection Hb as <-. exact Hcheck.
Defined.

(** * Closed instances of the further properties *)

(** A window of 60 seconds open since 1000 and full: a check at 1059.5
    is denied with a retry delay of 0, so is a check zero seconds later,
    and a check one second later is allowed. *)
Lemma in_memory_retry_after_is_one_short_witness :
  (exists again,
      check_rate_limit (at_time ((2119 # 2) + inject_Z 0)) "A" 5 60
        (seeded_records 5 1000)
      = (Ok (false, again), seeded_records 5 1000))
  /\ fst (check_rate_limit (at_time ((2119 # 2) + inject_Z 0 + 1)) "A" 5 60
            (seeded_records 5 1000))
     = Ok (true, 0).
Proof.
  destruct (in_memory_retry_after_is_one_short "A" 5 60 5 (2119 # 2) 1000
              (seeded_records 5 1000) (seeded_records 5 1000) 0)
    as (_ & Hagain & Hlater);
    [reflexivity | reflexivity | reflexivity | vm_compute; reflexivity
    | reflexivity |].
  split; assumption.
Defined.

(** Three calls of two clients with a limit of 2. *)
Lemma in_memory_counts_within_limit_witness :
  map_Forall (fun _ (r : Z * Q) => 1 <= fst r <= Z.max 1 2)
    (InMemoryRateLimiter.request_records
       (snd (run_calls
               [(at_time 1000, "A", 2, 60); (at_time 1001, "A", 2, 60);
                (at_time 1002, "B", 2, 60)]
               InMemoryRateLimiter.init))).
Proof.
  apply (in_memory_counts_within_limit 2). repeat constructor.
Defined.

(** Four calls inside one window with a limit of 2: two are allowed. *)
Lemma in_memory_allowed_per_window_witness :
  Z.of_nat
    (count_allowed
       (fst (run_checks "A" 2 60 (map at_time [1000; 1001; 1002; 1003]%Q)
               InMemoryRateLimiter.init)))
  = Z.min 4 (Z.max 1 2).
Proof.
  apply (in_memory_allowed_per_window "A" 2 60 1000 [1001; 1002; 1003]%Q
           InMemoryRateLimiter.init).
  - reflexivity.
  - repeat constructor; vm_compute; discriminate.
Defined.

(** Client ["B"] is decided the same with or without a check for
    client ["A"] before it. *)
Lemma in_memory_clients_independent_witness :
  fst (check_rate_limit (at_time 1001) "B" 5 60
         (snd (check_rate_limit (at_time 1000) "A" 5 60
                 (seeded_records 5 990))))
  = fst (check_rate_limit (at_time 1001) "B" 5 60 (seeded_records 5 990)).
Proof.
  destruct (in_memory_clients_independent (at_time 1000) (at_time 1001)
              "A" "B" 5 60 5 60 (seeded_records 5 990))
    as (Hdecision & _); [discriminate |].
  exact Hdecision.
Defined.

(** On an empty store: a key never set, a key set twice, and another
    key. *)
Lemma in_memory_store_laws_witness :
  get_data "k" InMemoryRateLimiter.init = (Ok VNone, InMemoryRateLimiter.init)
  /\ fst (get_data "k"
            (snd (set_data "k" (VStr "b") None
                    (snd (set_data "k" (VStr "a") (Some 60)
                            InMemoryRateLimiter.init)))))
     = Ok (VPair (VStr "b") VNone)
  /\ fst (get_data "other"
            (snd (set_data "k" (VStr "a") (Some 60) InMemoryRateLimiter.init)))
     = fst (get_data "other" InMemoryRateLimiter.init).
Proof.
  destruct (in_memory_store_laws "k" "other" (VStr "a") (VStr "b")
              (Some 60) None InMemoryRateLimiter.init)
    as (Hmissing & Hlast & Hother).
  split; [apply Hmissing; reflexivity |].
  split; [exact Hlast | apply Hother; discriminate].
Defined.

(** A record at the limit, window 60, jitter 5 with a draw of 3: the
    plain limiter denies with a delay of 60, the wrapper denies too. *)
Lemma jitter_keeps_denials_witness :
  exists jittered_retry,
    check_rate_limit draw_three "A" 5 60
      (FixedWindowRateLimiter.init (seeded_records 5 1000) (Some 5))
    = (Ok (false, jittered_retry),
       FixedWindowRateLimiter.init (seeded_records 5 1000) (Some 5))
    /\ 60 <= jittered_retry.
Proof.
  apply (jitter_keeps_denials draw_three "A" 5 60
           (FixedWindowRateLimiter.init (seeded_records 5 1000) (Some 5))
           (seeded_records 5 1000) 60).
  - left. cbn. lia.
  - reflexivity.
Defined.

(** A check for client ["A"] leaves the key ["other"] alone. *)
Lemma redis_check_frame_witness :
  RedisRateLimiter.redis
    (snd (check_rate_limit (at_time 1000) "A" 5 60 (seeded_redis 5 939)))
    !! "other"
  = RedisRateLimiter.redis (seeded_redis 5 939) !! "other".
Proof.
  destruct (redis_check_frame (at_time 1000) "A" 5 60 (seeded_redis 5 939))
    as (_ & Hframe & _).
  apply Hframe; discriminate.
Defined.

(** Both limiters empty, limit 2, window 60: the same four decisions. *)
Lemma redis_decides_as_in_memory_witness :
  fst (run_checks "A" 2 60 (map at_time [1000; 1001; 1002; 1061]%Q)
         (RedisRateLimiter.init ∅ None))
  = fst (run_checks "A" 2 60 (map at_time [1000; 1001; 1002; 1061]%Q)
           InMemoryRateLimiter.init).
Proof.
  apply redis_decides_as_in_memory; [lia | reflexivity].
Defined.

(** A count of 7 whose start entry is gone: the next check allows and
    starts over at 1. *)
Lemma redis_incomplete_record_restarts_witness :
  exists self',
    check_rate_limit (at_time 1000) "A" 5 60
      {| RedisRateLimiter.redis :=
           {["ratelimit:A:count" := (Redis.BInt 7, None)]};
         RedisRateLimiter.prefix := "ratelimit:" |}
    = (Ok (true, 0), self')
    /\ RedisRateLimiter.redis self' !! "ratelimit:A:count"
       = Some (Redis.BInt 1, Some 60)
    /\ RedisRateLimiter.redis self' !! "ratelimit:A:start"
       = Some (Redis.BFloat 1000, Some 60).
Proof.
  apply (redis_incomplete_record_restarts (at_time 1000) "A" 5 60
           {| RedisRateLimiter.redis :=
                {["ratelimit:A:count" := (Redis.BInt 7, None)]};
              RedisRateLimiter.prefix := "ratelimit:" |});
    [lia | reflexivity].
Defined.

(** The int 4 stored with a ttl of 0, with a ttl of -1, and [None]
    stored. *)
Lemma redis_set_data_ttl_witness :
  set_data "k" (VInt 4) (Some 0) (RedisRateLimiter.init ∅ None)
    = set_data "k" (VInt 4) None (RedisRateLimiter.init ∅ None)
  /\ set_data "k" (VInt 4) (Some (-1)) (RedisRateLimiter.init ∅ None)
     = (Raise ResponseError, RedisRateLimiter.init ∅ None)
  /\ set_data "k" VNone (Some 60) (RedisRateLimiter.init ∅ None)
     = (Raise DataError, RedisRateLimiter.init ∅ None).
Proof.
  destruct (redis_set_data_ttl "k" (VInt 4) (RedisRateLimiter.init ∅ None))
    as (Hencoded & _).
  destruct (Hencoded (Redis.BInt 4) eq_refl) as (Hnone & Hzero & _ & Hneg).
  destruct (redis_set_data_ttl "k" VNone (RedisRateLimiter.init ∅ None))
    as (_ & Hraise).
  split; [rewrite Hnone, Hzero; reflexivity |].
  split; [apply Hneg; lia | apply Hraise; reflexivity].
Defined.

(** Tokens 2.5 and a last update 30 seconds ago, limit 5 per 60
    seconds: allowed, and the token count written is 4. *)
Lemma token_bucket_allow_witness :
  exists (written : num) (st : TokenBucketRateLimiter.t
                                 (Recording.t InMemoryRateLimiter.t)),
    check_rate_limit (at_time 1000) "A" 5 60
      (recorded (seeded_store (VFloat (5 # 2)) (VFloat 970)) [] None)
    = (Ok (true, 0), st)
    /\ Recording.set_calls (TokenBucketRateLimiter.storage st)
       = [("bucket:A", VNum written, Some 120);
          ("last_update:A", VFloat 1000, Some 120)]
    /\ (0 <= num_q written)%Q /\ (num_q written <= 4)%Q.
Proof.
  destruct (token_bucket_allow (at_time 1000) "A" 5 60 None
              (seeded_store (VFloat (5 # 2)) (VFloat 970))
              (seeded_store (VFloat (5 # 2)) (VFloat 970))
              (seeded_store (VFloat (5 # 2)) (VFloat 970))
              [] (VFloat (5 # 2)) (VFloat 970)
              (NFloat (5 # 2)) (NFloat 970))
    as (written & r1 & r2 & s3 & s4 & _ & _ & Hcheck & Hlow & Hhigh & _);
    [reflexivity | intros; eexists _, _; reflexivity | reflexivity
    | reflexivity | reflexivity | reflexivity | vm_compute; discriminate
    | vm_compute; discriminate |].
  exists written. eexists. split; [exact Hcheck |].
  split; [reflexivity |]. split; [exact Hlow |].
  eapply Qle_trans; [exact Hhigh |]. vm_compute. discriminate.
Defined.

(** No token left and a last update 13 seconds ago, limit 5 per 60
    seconds: allowed. *)
Lemma token_bucket_refill_interval_suffices_witness :
  fst (check_rate_limit (at_time 1000) "A" 5 60
         (recorded (seeded_store (VInt 0) (VFloat 987)) [] None))
  = Ok (true, 0).
Proof.
  apply (token_bucket_refill_interval_suffices (at_time 1000) "A" 5 60 None
           (seeded_store (VInt 0) (VFloat 987))
           (seeded_store (VInt 0) (VFloat 987))
           (seeded_store (VInt 0) (VFloat 987))
           [] (VInt 0) (VFloat 987) (NInt 0) (NFloat 987));
    [reflexivity | intros; eexists _, _; reflexivity
    | vm_compute; discriminate | vm_compute; discriminate
    | reflexivity | reflexivity | reflexivity | reflexivity].
Defined.

(** A token bucket whose backend is a jittered wrapper, and one whose
    backend is another token bucket. *)
Lemma token_bucket_over_storeless_backend_witness :
  check_rate_limit (at_time 1000) "A" 1 60
    (TokenBucketRateLimiter.init
       (FixedWindowRateLimiter.init InMemoryRateLimiter.init None) None)
  = (Ok (true, 0),
     TokenBucketRateLimiter.init
       (FixedWindowRateLimiter.init InMemoryRateLimiter.init None) None)
  /\ check_rate_limit (at_time 1000) "A" 1 60
       (TokenBucketRateLimiter.init
          (TokenBucketRateLimiter.init InMemoryRateLimiter.init None) None)
     = (Ok (true, 0),
        TokenBucketRateLimiter.init
          (TokenBucketRateLimiter.init InMemoryRateLimiter.init None) None).
Proof.
  apply (token_bucket_over_storeless_backend (at_time 1000) "A" 1 60
           (TokenBucketRateLimiter.init
              (FixedWindowRateLimiter.init InMemoryRateLimiter.init None)
              None)
           (TokenBucketRateLimiter.init
              (TokenBucketRateLimiter.init InMemoryRateLimiter.init None)
              None)).
  lia.
Defined.


(** A request without a client address, with the default identifier. *)
Lemma rate_limit_errors_pass_through_witness :
  rate_limit 5 60 None test_endpoint (at_time 1000)
    [ARequest {| client_host := None; url_path := "/test" |}] []
    InMemoryRateLimiter.init
  = (Raise AttributeError, InMemoryRateLimiter.init).
Proof.
  destruct (rate_limit_errors_pass_through 5 60 None test_endpoint
              (at_time 1000)
              [ARequest {| client_host := None; url_path := "/test" |}] []
              {| client_host := None; url_path := "/test" |}
              InMemoryRateLimiter.init)
    as (_ & _ & Hclient); [reflexivity |].
  apply Hclient; reflexivity.
Defined.

(** Two requests served and the third refused, as in the integration
    test of the repository. *)
Lemma rate_limit_in_memory_end_to_end_witness :
  exists retry_after,
    fst (run_requests (rate_limit 2 60 None test_endpoint)
           [ARequest test_request] []
           (map at_time (1000 :: [1001] ++ [1002])%Q)
           InMemoryRateLimiter.init)
    = repeat (test_endpoint [ARequest test_request] []) (Z.to_nat 2)
        ++ [Raise (HTTPException 429
                     ("Rate limit exceeded. Try again in "
                        +:+ pretty retry_after +:+ " seconds.")
                     [("Retry-After", pretty retry_after)])]
    /\ 0 <= retry_after <= 60.
Proof.
  apply (rate_limit_in_memory_end_to_end 2 60 None test_endpoint
           [ARequest test_request] [] test_request "127.0.0.1/test"
           1000 1002 [1001]%Q InMemoryRateLimiter.init).
  - reflexivity.
  - reflexivity.
  - reflexivity.
  - lia.
  - reflexivity.
  - repeat constructor. vm_compute. discriminate.
  - vm_compute. discriminate.
  - vm_compute. discriminate.
Defined.

(** The token-bucket endpoint of the example application: the second
    request of a client raises [TypeError]. *)
Lemma rate_limit_token_bucket_in_memory_witness :
  rate_limit 10 60 None test_endpoint (at_time 1001)
    [ARequest test_request] []
    (snd (check_rate_limit (at_time 1000) "127.0.0.1/test" 10 60
            (TokenBucketRateLimiter.init_default None)))
  = (Raise TypeError,
     snd (check_rate_limit (at_time 1000) "127.0.0.1/test" 10 60
            (TokenBucketRateLimiter.init_default None))).
Proof.
  apply (rate_limit_token_bucket_in_memory 10 60 10 60 None test_endpoint
           (at_time 1000) (at_time 1001) [ARequest test_request] []
           test_request "127.0.0.1/test" (true, 0)
           (TokenBucketRateLimiter.init_default None)).
  - reflexivity.
  - reflexivity.
  - lia.
  - reflexivity.
Defined.

(** A token entry holding text that [float] rejects: the error of
    [float], and nothing written. *)
Lemma token_bucket_unusable_values_witness :
  check_rate_limit (at_time 1000) "A" 5 60
    (recorded (seeded_store (VStr "abc") (VFloat 999)) [] None)
  = (Raise (ValueError "could not convert string to float"),
     recorded (seeded_store (VStr "abc") (VFloat 999)) [] None).
Proof.
  destruct (token_bucket_unusable_values (at_time 1000) "A" 5 60 None
              (seeded_store (VStr "abc") (VFloat 999))
              (seeded_store (VStr "abc") (VFloat 999))
              (seeded_store (VStr "abc") (VFloat 999))
              [] (VStr "abc") (VFloat 999))
    as (Htext & _);
    [lia | reflexivity | reflexivity | reflexivity | reflexivity |].
  apply Htext. reflexivity.
Defined.
